(** * blockchat: shallow embedding of the EVM tool server's core

    The development follows the TypeScript sources of the server:

    - [Js]        the fragment of JavaScript the handlers rely on
                  (thrown values, truthiness of strings, [||]);
    - [Config]    [core/config.ts];
    - [Clients]   [core/services/clients.ts] (the read-client cache and the
                  wallet-client constructor);
    - [Codec]     the decimal <-> base-unit conversion the services import;
    - [Transfer]  [core/services/transfer.ts];
    - [Bridge]    the [bridge_native_eth_across] tool of [core/tools.ts];
    - [Swap]      the [swap_tokens_1inch] tool of [core/tools.ts].

    Library calls (viem, axios, the Across SDK, the chain registry) are taken
    as parameters of the functions that call them; console output is not
    modelled. *)

From Stdlib Require Import ZArith QArith Lia Ascii.
From Stdlib Require Import DecimalString DecimalN DecimalFacts.
From stdpp Require Import gmap strings list.

Local Open Scope string_scope.
Local Open Scope list_scope.

(* ===================================================================== *)
(** ** The JavaScript fragment *)
(* ===================================================================== *)

Module Js.

(** A thrown value. The handlers look at [message], at viem's
    [shortMessage], at axios' [response.data.description] and
    [response.data.error], at [instanceof Error] and at [String(e)]. *)
Record exn := mkExn {
  exn_is_Error : bool;
  exn_message : option string;
  exn_shortMessage : option string;
  exn_response_description : option string;
  exn_response_error : option string;
  exn_String : string
}.

Definition Error (msg : string) : exn :=
  mkExn true (Some msg) None None None ("Error: " +:+ msg).

Definition TypeError (msg : string) : exn :=
  mkExn true (Some msg) None None None ("TypeError: " +:+ msg).

(** Outcome of a call that can throw. *)
Inductive result (A : Type) : Type :=
| Ok (a : A)
| Throw (e : exn).
Arguments Ok {A} a.
Arguments Throw {A} e.

(** [s.startsWith(p)] *)
Definition startsWith (s p : string) : bool := String.prefix p s.

(** Truthiness of a string: only the empty string is falsy. *)
Definition truthy_string (s : string) : bool :=
  match s with
  | EmptyString => false
  | String _ _ => true
  end.

(** Truthiness of a possibly [undefined] string, as in
    [if (!privateKey)] on an environment variable. *)
Definition truthy_opt (o : option string) : bool :=
  match o with
  | Some s => truthy_string s
  | None => false
  end.

(** [a || b] on possibly [undefined] strings. *)
Definition or_else (a b : option string) : option string :=
  if truthy_opt a then a else b.

(** [a || "literal"] *)
Definition or_default (a : option string) (d : string) : string :=
  match a with
  | Some s => if truthy_string s then s else d
  | None => d
  end.

End Js.

Export Js(result, Ok, Throw, exn).

(* ===================================================================== *)
(** ** core/config.ts *)
(* ===================================================================== *)

Module Config.

(** The one normalisation every key-taking entry point repeats:
    [key.startsWith('0x') ? key : `0x${key}`]. *)
Definition ensure0x (privateKey : string) : string :=
  if Js.startsWith privateKey "0x" then privateKey else "0x" +:+ privateKey.

(** [getPrivateKey()]; the argument is [process.env.WALLET_PRIVATE_KEY]. *)
Definition getPrivateKey (WALLET_PRIVATE_KEY : option string) : result string :=
  match WALLET_PRIVATE_KEY with
  | Some privateKey =>
      if Js.truthy_string privateKey
      then Ok (ensure0x privateKey)
      else Throw (Js.Error "WALLET_PRIVATE_KEY environment variable is not set. Please add it to your .local.env file.")
  | None =>
      Throw (Js.Error "WALLET_PRIVATE_KEY environment variable is not set. Please add it to your .local.env file.")
  end.

End Config.

(* ===================================================================== *)
(** ** core/services/clients.ts *)
(* ===================================================================== *)

Module Clients.

(** A viem chain description, as far as the handlers read it. *)
Record Chain := mkChain { chain_id : Z; chain_name : string }.

(** A read client is an object: [pc_ref] is its identity (the number of
    clients constructed before it), the other fields are what
    [createPublicClient] was given. *)
Record PublicClient := mkPublicClient {
  pc_ref : nat;
  pc_chain : option Chain;
  pc_rpcUrl : string
}.

Record Account := mkAccount { account_address : string }.

Record WalletClient := mkWalletClient {
  wc_account : option Account;
  wc_chain : option Chain;
  wc_rpcUrl : string
}.

(** The module-level state: [clientCache] and the allocation counter that
    gives each constructed client its identity. *)
Record state := mkState {
  clientCache : gmap string PublicClient;
  constructed : nat
}.

Definition initial : state := mkState ∅ 0.

(** A network identifier is a name or a chain id
    ([string | number] in the sources). *)
Inductive network_id :=
| NetName (name : string)
| NetId (id : Z).

(** What [clients.ts] imports: the chain registry ([../chains.js], whose
    [getChain] the tool handlers test for a falsy result) and viem's
    constructors. [createPublicClient_throws] says whether the constructor
    throws on the given chain and RPC URL; [createWalletClient_account] is
    the [account] field of the wallet client built for an account. *)
Record externals := mkExternals {
  getChain : network_id -> result (option Chain);
  getRpcUrl : network_id -> result string;
  createPublicClient_throws : option Chain -> string -> option exn;
  privateKeyToAccount : string -> result Account;
  createWalletClient_account : Account -> option Account
}.

Section WithExternals.
Variable ext : externals.

(** [getPublicClient(network = 'ethereum')]. [String(network)] is the
    identity on a string. *)
Definition getPublicClient (network : string) (st : state)
  : result PublicClient * state :=
  let cacheKey := network in
  match clientCache st !! cacheKey with
  | Some client => (Ok client, st)
  | None =>
      match getChain ext (NetName network) with
      | Throw e => (Throw e, st)
      | Ok chain =>
          match getRpcUrl ext (NetName network) with
          | Throw e => (Throw e, st)
          | Ok rpcUrl =>
              match createPublicClient_throws ext chain rpcUrl with
              | Some e => (Throw e, st)
              | None =>
                  let client := mkPublicClient (constructed st) chain rpcUrl in
                  (Ok client,
                   mkState (<[cacheKey := client]> (clientCache st))
                           (S (constructed st)))
              end
          end
      end
  end.

(** [getWalletClient(privateKey, network)]: nothing is cached, and the
    key goes to [privateKeyToAccount] as it was received. *)
Definition getWalletClient (privateKey : string) (network : network_id)
  : result WalletClient :=
  match getChain ext network with
  | Throw e => Throw e
  | Ok chain =>
      match getRpcUrl ext network with
      | Throw e => Throw e
      | Ok rpcUrl =>
          match privateKeyToAccount ext privateKey with
          | Throw e => Throw e
          | Ok account =>
              Ok (mkWalletClient (createWalletClient_account ext account)
                                 chain rpcUrl)
          end
      end
  end.

(** [getAddressFromPrivateKey(privateKey)] *)
Definition getAddressFromPrivateKey (privateKey : string) : result string :=
  match privateKeyToAccount ext privateKey with
  | Throw e => Throw e
  | Ok account => Ok (account_address account)
  end.

End WithExternals.

End Clients.

(* ===================================================================== *)
(** ** The amount codec *)
(* ===================================================================== *)

Module Codec.

Local Open Scope char_scope.
Local Open Scope list_scope.

(** The error kind of a rejected amount. *)
Definition InvalidAmount : exn := Js.Error "InvalidAmount".

Definition is_digit (c : ascii) : bool :=
  match c with
  | "0" | "1" | "2" | "3" | "4" | "5" | "6" | "7" | "8" | "9" => true
  | _ => false
  end.

Definition is_zero (c : ascii) : bool := Ascii.eqb c "0".
Definition is_point (c : ascii) : bool := Ascii.eqb c ".".

(** The parts of a decimal string before and after its first point. *)
Fixpoint split_point (l : list ascii) : list ascii * list ascii :=
  match l with
  | [] => ([], [])
  | c :: l' =>
      if is_point c then ([], l')
      else let '(integer, fraction) := split_point l' in (c :: integer, fraction)
  end.

Fixpoint trim_leading_zeros (l : list ascii) : list ascii :=
  match l with
  | [] => []
  | c :: l' => if is_zero c then trim_leading_zeros l' else l
  end.

Definition trim_trailing_zeros (l : list ascii) : list ascii :=
  reverse (trim_leading_zeros (reverse l)).

(** Zero padding on the right and on the left, up to [n] characters. *)
Definition padEnd (l : list ascii) (n : nat) : list ascii :=
  l ++ replicate (n - length l) "0".
Definition padStart (l : list ascii) (n : nat) : list ascii :=
  replicate (n - length l) "0" ++ l.

(** An empty integer part reads [0]. *)
Definition or_zero (l : list ascii) : list ascii :=
  match l with
  | [] => ["0"]
  | _ => l
  end.

(** The value of a string of decimal digits, and the decimal digits of a
    non-negative integer. *)
Definition BigInt (l : list ascii) : option N :=
  N.of_uint <$> NilEmpty.uint_of_string (String.string_of_list_ascii l).
Definition toString (n : N) : list ascii :=
  String.list_ascii_of_string (NilEmpty.string_of_uint (N.to_uint n)).

(** An integer part and a fraction as one string: the point is written
    only before a non-empty fraction. *)
Definition render (integer fraction : list ascii) : list ascii :=
  or_zero integer ++
  match fraction with
  | [] => []
  | _ => "." :: fraction
  end.

(** Modelled from the spec: [toBaseUnits] is viem's [parseUnits], which
    [transfer.ts] imports and which is not among the sources. Section 4.4:
    it parses a decimal string and fails with [InvalidAmount] if the string
    is non-numeric, negative, or has more fractional digits than
    [decimals]; the policy is to reject, not to truncate. *)
Definition toBaseUnits (humanAmount : string) (decimals : nat) : result N :=
  let '(integer, fraction) := split_point (String.list_ascii_of_string humanAmount) in
  if forallb is_digit integer && forallb is_digit fraction
     && negb (bool_decide (integer ++ fraction = []))
     && (length fraction <=? decimals)%nat
  then match BigInt (integer ++ padEnd fraction decimals) with
       | Some raw => Ok raw
       | None => Throw InvalidAmount
       end
  else Throw InvalidAmount.

(** Modelled from the spec: [toHumanUnits] is viem's [formatUnits], which
    [balance.ts] imports and which is not among the sources. Section 4.4:
    it always succeeds for non-negative integers and trims the trailing
    zero padding that [decimals] introduces, preserving the exact value. *)
Definition toHumanUnits (raw : N) (decimals : nat) : string :=
  let display := padStart (toString raw) decimals in
  let integer := take (length display - decimals) display in
  let fraction := drop (length display - decimals) display in
  String.string_of_list_ascii (render integer (trim_trailing_zeros fraction)).

(** Modelled from the spec: section 8 names [canonicalForm] without
    defining it; it is taken to be the decimal string with the leading
    zeros of the integer part and the trailing zeros of the fraction
    removed, [0] for an empty integer part and no point before an empty
    fraction. *)
Definition canonicalForm (s : string) : string :=
  let '(integer, fraction) := split_point (String.list_ascii_of_string s) in
  String.string_of_list_ascii
    (render (trim_leading_zeros integer) (trim_trailing_zeros fraction)).

(** Modelled from the spec: what makes a decimal string canonical, said
    of the string itself and without the steps of the formatter. The part
    before the point is one digit, or several that do not start with [0];
    after it come digits only; the string does not end in a point, and,
    when it has a fraction, does not end in [0]. *)
Definition is_canonical (s : string) : bool :=
  let l := String.list_ascii_of_string s in
  let '(integer, fraction) := split_point l in
  forallb is_digit integer && forallb is_digit fraction
  && match integer with
     | [] => false
     | [_] => true
     | c :: _ => negb (is_zero c)
     end
  && match fraction, last l with
     | [], Some c => negb (is_point c)
     | _ :: _, Some c => negb (is_zero c)
     | _, None => false
     end.

(** The three ways section 4.4 lists for an amount to be unacceptable:
    too many digits after the point, not a number, or negative. *)
Definition fraction_digits (s : string) : nat :=
  length (snd (split_point (String.list_ascii_of_string s))).

(** Digits, at least one, around at most one point. *)
Definition numeric (s : string) : Prop :=
  exists integer fraction : list ascii,
    Forall (fun c => is_digit c = true) (integer ++ fraction) /\
    integer ++ fraction <> [] /\
    (String.list_ascii_of_string s = integer \/
     String.list_ascii_of_string s = integer ++ "." :: fraction).

Definition negative (s : string) : Prop :=
  exists rest, s = String "-" rest.

(** A decimal string as the round trip takes it: digits around at most
    one point, at least one digit. *)
Definition is_decimal (s : string) : bool :=
  let '(integer, fraction) := split_point (String.list_ascii_of_string s) in
  forallb is_digit integer && forallb is_digit fraction
  && negb (bool_decide (integer ++ fraction = [])).

End Codec.

(* ===================================================================== *)
(** ** core/services/transfer.ts *)
(* ===================================================================== *)

Module Transfer.

Import Clients.

(** What reaches the chain: the argument of [sendTransaction] or of
    [writeContract]. *)
Inductive submission :=
| SendTransaction (to : string) (value : N)
| WriteContract (address functionName to : string) (amount : N).

(** The ENS resolver ([./ens.js]), viem's two amount parsers, the two
    contract reads and the submitting calls of the wallet client. *)
Record externals := mkExternals {
  clients : Clients.externals;
  resolveAddress : string -> string -> result string;
  parseEther : string -> result N;
  parseUnits : string -> nat -> result N;
  read_decimals : PublicClient -> string -> result nat;
  read_symbol : PublicClient -> string -> result string;
  submit : WalletClient -> submission -> result string
}.

Record amount_info := mkAmount { raw : N; formatted : string }.
Record token_info := mkToken { symbol : string; decimals : nat }.
Record outcome := mkOutcome {
  txHash : string;
  amount : amount_info;
  token : token_info
}.

(** The key normalisation as [transfer.ts] writes it. *)
Definition formatKey (privateKey : string) : string :=
  if negb (Js.startsWith privateKey "0x") then "0x" +:+ privateKey else privateKey.

Section WithExternals.
Variable ext : externals.

(** [transferETH(privateKey, toAddressOrEns, amount, network)]: the
    result and the submissions made. *)
Definition transferETH (privateKey toAddressOrEns amount network : string)
  : result string * list submission :=
  match resolveAddress ext toAddressOrEns network with
  | Throw e => (Throw e, [])
  | Ok toAddress =>
      let formattedKey := formatKey privateKey in
      match getWalletClient (clients ext) formattedKey (NetName network) with
      | Throw e => (Throw e, [])
      | Ok client =>
          match parseEther ext amount with
          | Throw e => (Throw e, [])
          | Ok amountWei =>
              let tx := SendTransaction toAddress amountWei in
              (submit ext client tx, [tx])
          end
      end
  end.

(** The body [transferERC20] and [approveERC20] share; they differ in the
    contract function they call. *)
Definition erc20_call (functionName : string)
    (tokenAddressOrEns counterpartyOrEns amount privateKey network : string)
    (st : state)
  : result outcome * state * list submission :=
  match resolveAddress ext tokenAddressOrEns network with
  | Throw e => (Throw e, st, [])
  | Ok tokenAddress =>
  match resolveAddress ext counterpartyOrEns network with
  | Throw e => (Throw e, st, [])
  | Ok counterparty =>
  let formattedKey := formatKey privateKey in
  match getPublicClient (clients ext) network st with
  | (Throw e, st1) => (Throw e, st1, [])
  | (Ok publicClient, st1) =>
  match read_decimals ext publicClient tokenAddress with
  | Throw e => (Throw e, st1, [])
  | Ok decimals =>
  match read_symbol ext publicClient tokenAddress with
  | Throw e => (Throw e, st1, [])
  | Ok symbol =>
  match parseUnits ext amount decimals with
  | Throw e => (Throw e, st1, [])
  | Ok rawAmount =>
  match getWalletClient (clients ext) formattedKey (NetName network) with
  | Throw e => (Throw e, st1, [])
  | Ok walletClient =>
  let call := WriteContract tokenAddress functionName counterparty rawAmount in
  match submit ext walletClient call with
  | Throw e => (Throw e, st1, [call])
  | Ok hash =>
      (Ok (mkOutcome hash (mkAmount rawAmount amount) (mkToken symbol decimals)),
       st1, [call])
  end end end end end end end end.

Definition transferERC20 := erc20_call "transfer".
Definition approveERC20 := erc20_call "approve".

End WithExternals.

End Transfer.

(* ===================================================================== *)
(** ** core/tools.ts: bridge_native_eth_across *)
(* ===================================================================== *)

Module Bridge.

Import Clients.

(** What a tool handler returns: the text content, the [isError] flag and
    the transaction hash field ([depositTxHash] here). *)
Record tool_result := mkResult {
  text : string;
  isError : bool;
  depositTxHash : option string
}.

Definition failure (msg : string) : tool_result := mkResult msg true None.

(** A value a promise is rejected with: a thrown fault, or the result
    object the handler passes to [reject]. *)
Inductive rejection :=
| Fault (e : exn)
| RejectedResult (r : tool_result).

(** A promise settles once; [resolve] and [reject] on a settled promise
    do nothing. *)
Inductive promise :=
| Pending
| Fulfilled (r : tool_result)
| Rejected (r : rejection).

Definition resolve (v : tool_result) (p : promise) : promise :=
  match p with
  | Pending => Fulfilled v
  | _ => p
  end.

Definition reject (v : tool_result) (p : promise) : promise :=
  match p with
  | Pending => Rejected (RejectedResult v)
  | _ => p
  end.

(** A progress event of the Across SDK, as far as the callback reads it. *)
Record progress := mkProgress {
  step : string;
  status : string;
  txReceipt_transactionHash : option string;
  error : option exn
}.

(** [`${progress.error || 'Unknown error'}`] *)
Definition error_text (error : option exn) : string :=
  match error with
  | Some e => Js.exn_String e
  | None => "Unknown error"
  end.

(** [error instanceof Error ? error.message : String(error)] *)
Definition message_of (e : exn) : string :=
  if Js.exn_is_Error e
  then match Js.exn_message e with Some m => m | None => "undefined" end
  else Js.exn_String e.

(** The [onProgress] callback, acting on the promise the handler returned. *)
Definition onProgress (progress : progress) (p : promise) : promise :=
  let p :=
    if String.eqb (step progress) "deposit" && String.eqb (status progress) "txSuccess"
    then
      if Js.truthy_opt (txReceipt_transactionHash progress)
      then
        match txReceipt_transactionHash progress with
        | Some transactionHash =>
            resolve (mkResult ("Successfully initiated ETH bridge. Deposit Tx: " +:+ transactionHash)
                              false (Some transactionHash)) p
        | None => p
        end
      else reject (failure "Deposit transaction successful but no transaction hash found.") p
    else p in
  if String.eqb (status progress) "txError" || String.eqb (status progress) "error"
  then reject (failure ("Bridging failed at step " +:+ step progress +:+ ". Reason: "
                        +:+ error_text (error progress))) p
  else p.

(** The [.catch] on the promise [executeQuote] returns. *)
Definition onExecuteError (e : exn) (p : promise) : promise :=
  reject (failure ("Error executing quote: " +:+ message_of e)) p.

(** What the SDK does to the handler during [executeQuote]: it calls
    [onProgress], or its own promise rejects. *)
Inductive signal :=
| Progress (progress : progress)
| ExecuteRejected (e : exn).

Definition deliver (s : signal) (p : promise) : promise :=
  match s with
  | Progress progress => onProgress progress p
  | ExecuteRejected e => onExecuteError e p
  end.

(** The promise after a sequence of signals, in arrival order. *)
Definition run (signals : list signal) (p : promise) : promise :=
  fold_left (fun p s => deliver s p) signals p.

Record route := mkRoute {
  originChainId : Z;
  destinationChainId : Z;
  inputToken : string;
  outputToken : string;
  isNative : bool
}.

(** The handler's calls into the Across SDK. *)
Inductive effect :=
| GetQuote (r : route) (inputAmount : N)
| ExecuteQuote (walletClient : WalletClient) (deposit : string).

(** The environment, the registry and viem, and the Across client:
    [getQuote] answers with the quote's [deposit] or rejects;
    [executeQuote] answers with the signals it sends, in order. *)
Record world := mkWorld {
  WALLET_PRIVATE_KEY : option string;
  clients : Clients.externals;
  parseEther : string -> result N;
  getQuote : route -> N -> result string;
  executeQuote : WalletClient -> string -> list signal
}.

Definition wethAddresses (chainId : Z) : option string :=
  if Z.eqb chainId 1 then Some "0xC02aaA39b223FE8D0A0e5C4F27eAD9083C756Cc2"
  else if Z.eqb chainId 10 then Some "0x4200000000000000000000000000000000000006"
  else if Z.eqb chainId 42161 then Some "0x82aF49447D8a07e3bd95BD0d56f35241523fBab1"
  else None.

Definition chain_id_text (id : Z) : string := NilZero.string_of_int (Z.to_int id).

(** The handler of [bridge_native_eth_across]: the SDK calls it made and
    the state of the promise it returned. A [throw] or a rejected [await]
    outside any [try] rejects that promise with the fault. *)
Definition bridge_native_eth_across (w : world)
    (originNetwork destinationNetwork amountInEth : string)
  : list effect * promise :=
  match WALLET_PRIVATE_KEY w with
  | None => ([], Fulfilled (failure "WALLET_PRIVATE_KEY environment variable is not set."))
  | Some privateKey =>
  if negb (Js.truthy_string privateKey)
  then ([], Fulfilled (failure "WALLET_PRIVATE_KEY environment variable is not set."))
  else
  let formattedKey :=
    if Js.startsWith privateKey "0x" then privateKey else "0x" +:+ privateKey in
  match getChain (clients w) (NetName originNetwork) with
  | Throw e => ([], Rejected (Fault e))
  | Ok originChain =>
  match getChain (clients w) (NetName destinationNetwork) with
  | Throw e => ([], Rejected (Fault e))
  | Ok destinationChain =>
  match originChain with
  | None => ([], Fulfilled (failure ("Unsupported origin network: " +:+ originNetwork)))
  | Some originChain =>
  match destinationChain with
  | None => ([], Fulfilled (failure ("Unsupported destination network: " +:+ destinationNetwork)))
  | Some destinationChain =>
  match wethAddresses (chain_id originChain) with
  | None => ([], Fulfilled (failure ("WETH address not configured for origin chain ID: "
                                     +:+ chain_id_text (chain_id originChain))))
  | Some inputTokenAddress =>
  match wethAddresses (chain_id destinationChain) with
  | None => ([], Fulfilled (failure ("WETH address not configured for destination chain ID: "
                                     +:+ chain_id_text (chain_id destinationChain))))
  | Some outputTokenAddress =>
  match parseEther w amountInEth with
  | Throw e => ([], Rejected (Fault e))
  | Ok inputAmount =>
  let r := mkRoute (chain_id originChain) (chain_id destinationChain)
                   inputTokenAddress outputTokenAddress true in
  match getQuote w r inputAmount with
  | Throw e => ([GetQuote r inputAmount], Rejected (Fault e))
  | Ok deposit =>
  match getWalletClient (clients w) formattedKey (NetId (chain_id originChain)) with
  | Throw e => ([GetQuote r inputAmount], Rejected (Fault e))
  | Ok walletClient =>
  match wc_account walletClient with
  | None => ([GetQuote r inputAmount],
             Fulfilled (failure "Failed to initialize wallet client with an account."))
  | Some _ =>
      ([GetQuote r inputAmount; ExecuteQuote walletClient deposit],
       run (executeQuote w walletClient deposit) Pending)
  end end end end end end end end end end end.

End Bridge.

(* ===================================================================== *)
(** ** core/tools.ts: swap_tokens_1inch *)
(* ===================================================================== *)

Module Swap.

Import Clients.

(** JSON, for the tool arguments and for the aggregator's answers. A
    number is a rational: the arguments arrive as JSON text, which has
    neither [NaN] nor infinities. *)
#[warnings="-register-all"]
Inductive json :=
| JNull
| JBool (b : bool)
| JNumber (q : Q)
| JString (s : string)
| JArray (items : list json)
| JObject (fields : list (string * json)).

(** A JavaScript value read from JSON: [None] is [undefined]. *)
Definition jsval := option json.

Fixpoint lookup_field (fields : list (string * json)) (name : string) : jsval :=
  match fields with
  | [] => None
  | (k, v) :: rest => if String.eqb k name then Some v else lookup_field rest name
  end.

(** [v.name]: a [TypeError] on [undefined] and [null], [undefined] where
    the property is absent (the handler reads no property that a
    primitive or an array carries). *)
Definition prop (v : jsval) (name : string) : result jsval :=
  match v with
  | None =>
      Throw (Js.TypeError ("Cannot read properties of undefined (reading '" +:+ name +:+ "')"))
  | Some JNull =>
      Throw (Js.TypeError ("Cannot read properties of null (reading '" +:+ name +:+ "')"))
  | Some (JObject fields) => Ok (lookup_field fields name)
  | Some _ => Ok None
  end.

(** [v?.name] *)
Definition optional_prop (v : jsval) (name : string) : jsval :=
  match v with
  | Some (JObject fields) => lookup_field fields name
  | _ => None
  end.

(** [typeof v === 'undefined'] *)
Definition is_undefined (v : jsval) : bool :=
  match v with
  | None => true
  | Some _ => false
  end.

Definition truthy (v : jsval) : bool :=
  match v with
  | None => false
  | Some JNull => false
  | Some (JBool b) => b
  | Some (JNumber q) => negb (Qeq_bool q 0)
  | Some (JString s) => Js.truthy_string s
  | Some (JArray _) => true
  | Some (JObject _) => true
  end.

(** The tool arguments as the protocol server receives them. *)
Record arguments := mkArguments {
  arg_fromTokenAddress : jsval;
  arg_toTokenAddress : jsval;
  arg_amount : jsval;
  arg_network : jsval;
  arg_slippage : jsval
}.

(** The arguments after the schema: what the handler destructures. *)
Record input := mkInput {
  fromTokenAddress : string;
  toTokenAddress : string;
  amount : string;
  network : string;
  slippage : Q
}.

(** [z.string()] *)
Definition z_string (v : jsval) : option string :=
  match v with
  | Some (JString s) => Some s
  | _ => None
  end.

(** [z.string().optional().default(d)] *)
Definition z_string_default (d : string) (v : jsval) : option string :=
  match v with
  | None => Some d
  | Some (JString s) => Some s
  | Some _ => None
  end.

(** [z.number().min(lo).max(hi).default(d)] *)
Definition z_number_range_default (lo hi d : Q) (v : jsval) : option Q :=
  match v with
  | None => Some d
  | Some (JNumber q) => if Qle_bool lo q && Qle_bool q hi then Some q else None
  | Some _ => None
  end.

(** The schema of [swap_tokens_1inch]. *)
Definition schema (a : arguments) : option input :=
  match z_string (arg_fromTokenAddress a) with
  | None => None
  | Some fromTokenAddress =>
  match z_string (arg_toTokenAddress a) with
  | None => None
  | Some toTokenAddress =>
  match z_string (arg_amount a) with
  | None => None
  | Some amount =>
  match z_string_default "ethereum" (arg_network a) with
  | None => None
  | Some network =>
  match z_number_range_default (1 # 100) 50 1 (arg_slippage a) with
  | None => None
  | Some slippage =>
      Some (mkInput fromTokenAddress toTokenAddress amount network slippage)
  end end end end end.

Record swap_params := mkParams {
  src : string;
  dst : string;
  param_amount : string;
  from : string;
  param_slippage : Q
}.

Record transaction_request := mkRequest {
  to : jsval;
  data : jsval;
  value : Z;
  gas : option Z
}.

(** What the handler does to the outside: HTTP requests to the
    aggregator, the timer, and the submission. *)
Inductive effect :=
| HttpGet (url : string) (params : option swap_params)
| Delay (ms : Z)
| SendTransaction (request : transaction_request).

(** The waits among the effects, in order. *)
Definition waits (effects : list effect) : list Z :=
  omap (fun e => match e with Delay ms => Some ms | _ => None end) effects.

Record tool_result := mkResult {
  text : string;
  isError : bool;
  transactionHash : option string
}.

Definition failure (msg : string) : tool_result := mkResult msg true None.

(** How a tool call ends: the schema refuses the arguments and the handler
    never runs, the handler returns, or a fault leaves the handler. *)
Inductive outcome :=
| InvalidArguments
| Returned (r : tool_result)
| Escaped (e : exn).

(** The environment, the registry and viem, axios ([axios_get] answers
    with [response.data]), the wallet client's [sendTransaction], and two
    built-ins: [BigInt(v)] and the text of [v] in a template string. *)
Record world := mkWorld {
  ONEINCH_API_KEY : option string;
  WALLET_PRIVATE_KEY : option string;
  clients : Clients.externals;
  axios_get : string -> option swap_params -> result jsval;
  sendTransaction : WalletClient -> transaction_request -> result string;
  js_BigInt : jsval -> result Z;
  js_text : jsval -> string
}.

Definition API_BASE_URL (chainId : Z) : string :=
  "https://api.1inch.dev/swap/v6.0/" +:+ Bridge.chain_id_text chainId.

(** [e instanceof Error ? e.message : String(e)] *)
Definition message_of := Bridge.message_of.

(** The outer [catch] of the handler. *)
Definition swap_failed (error : exn) : tool_result :=
  failure ("Swap failed: " +:+
           Js.or_default (Js.or_else (Js.exn_shortMessage error) (Js.exn_message error))
                         "An unknown error occurred during the swap process.").

(** The body of the outer [try] after the swap data arrived. *)
Definition submit_swap (w : world) (walletClient : WalletClient)
    (swapApiResponseData : jsval) : list effect * outcome :=
  match prop swapApiResponseData "tx" with
  | Throw e => ([], Returned (swap_failed e))
  | Ok txData =>
  let missing :=
    negb (truthy txData) ||
    negb (truthy (optional_prop txData "to")) ||
    negb (truthy (optional_prop txData "data")) ||
    is_undefined (optional_prop txData "value") in
  if missing
  then ([], Returned (failure "Invalid swap data received from 1inch (missing tx fields)."))
  else
  match js_BigInt w (optional_prop txData "value") with
  | Throw e => ([], Returned (swap_failed e))
  | Ok value =>
  match (if truthy (optional_prop txData "gas")
         then match js_BigInt w (optional_prop txData "gas") with
              | Ok g => Ok (Some g)
              | Throw e => Throw e
              end
         else Ok None) with
  | Throw e => ([], Returned (swap_failed e))
  | Ok gas =>
  let transactionRequest :=
    mkRequest (optional_prop txData "to") (optional_prop txData "data") value gas in
  match sendTransaction w walletClient transactionRequest with
  | Throw e => ([SendTransaction transactionRequest], Returned (swap_failed e))
  | Ok hash =>
      let toToken := optional_prop swapApiResponseData "toToken" in
      let toTokenSymbol :=
        if truthy (optional_prop toToken "symbol")
        then js_text w (optional_prop toToken "symbol") else "Unknown Token" in
      let toTokenDecimals :=
        match optional_prop toToken "decimals" with
        | None => "N/A"
        | Some d => js_text w (Some d)
        end in
      ([SendTransaction transactionRequest],
       Returned (mkResult
         ("Swap transaction submitted. Hash: " +:+ hash +:+ ". Expected output: "
          +:+ js_text w (optional_prop swapApiResponseData "toAmount") +:+ " "
          +:+ toTokenSymbol +:+ " (raw amount, decimals: " +:+ toTokenDecimals +:+ ")")
         false (Some hash)))
  end end end end.

Definition spender_url (chainId : Z) : string :=
  API_BASE_URL chainId +:+ "/approve/spender".
Definition swap_url (chainId : Z) : string :=
  API_BASE_URL chainId +:+ "/swap".

(** The outer [try]: spender lookup, the wait, swap data, submission. *)
Definition swap_pipeline (w : world) (i : input) (chainId : Z)
    (walletClient : WalletClient) (fromWalletAddress : string)
  : list effect * outcome :=
  let spender_url := spender_url chainId in
  let spender :=
    match axios_get w spender_url None with
    | Throw e => Throw e
    | Ok spenderResponse_data => prop spenderResponse_data "address"
    end in
  match spender with
  | Throw e =>
      ([HttpGet spender_url None],
       Returned (failure ("Error fetching 1inch spender: " +:+ message_of e)))
  | Ok spenderAddress =>
  let swap_url := swap_url chainId in
  let swapApiParams :=
    mkParams (fromTokenAddress i) (toTokenAddress i) (amount i)
             fromWalletAddress (slippage i) in
  let before := [HttpGet spender_url None; Delay 1100;
                 HttpGet swap_url (Some swapApiParams)] in
  match axios_get w swap_url (Some swapApiParams) with
  | Throw e =>
      let errorDetail :=
        Js.or_else (Js.or_else (Js.exn_response_description e) (Js.exn_response_error e))
                   (Js.exn_message e) in
      (before,
       Returned (failure ("Error fetching swap data from 1inch: "
                          +:+ Js.or_default errorDetail "Unknown error")))
  | Ok swapApiResponseData =>
      let '(after, r) := submit_swap w walletClient swapApiResponseData in
      (before ++ after, r)
  end end.

(** The spender lookup on its own, as the inner [try] of the pipeline
    makes it: the request, then the read of [data.address]. *)
Definition spender_lookup (w : world) (url : string) : result jsval :=
  match axios_get w url None with
  | Throw e => Throw e
  | Ok spenderResponse_data => prop spenderResponse_data "address"
  end.

(** The handler of [swap_tokens_1inch]. *)
Definition handler (w : world) (i : input) : list effect * outcome :=
  if negb (Js.truthy_opt (ONEINCH_API_KEY w))
  then ([], Returned (failure "Server configuration error: Missing 1inch API key."))
  else
  match WALLET_PRIVATE_KEY w with
  | None => ([], Returned (failure "Server configuration error: Missing wallet private key."))
  | Some key =>
  if negb (Js.truthy_string key)
  then ([], Returned (failure "Server configuration error: Missing wallet private key."))
  else
  let formattedPk := if Js.startsWith key "0x" then key else "0x" +:+ key in
  match getChain (clients w) (NetName (network i)) with
  | Throw e => ([], Escaped e)
  | Ok None => ([], Returned (failure ("Unsupported network: " +:+ network i)))
  | Ok (Some chain) =>
  let chainId := chain_id chain in
  match getWalletClient (clients w) formattedPk (NetId chainId) with
  | Throw e => ([], Escaped e)
  | Ok walletClient =>
  match wc_account walletClient with
  | None => ([], Returned (failure "Failed to initialize wallet client with an account."))
  | Some account =>
      swap_pipeline w i chainId walletClient (account_address account)
  end end end end.


(** The effects of a pipeline run up to and including the swap request. *)
Definition params_of (i : input) (address : string) : swap_params :=
  mkParams (fromTokenAddress i) (toTokenAddress i) (amount i) address (slippage i).

Definition prelude (i : input) (chainId : Z) (address : string) : list effect :=
  [HttpGet (spender_url chainId) None; Delay 1100;
   HttpGet (swap_url chainId) (Some (params_of i address))].

(** The tool as registered: the protocol server checks the arguments
    against the schema and calls the handler on what the schema yields. *)
Definition swap_tokens_1inch (w : world) (a : arguments) : list effect * outcome :=
  match schema a with
  | None => ([], InvalidArguments)
  | Some i => handler w i
  end.

End Swap.

(* ===================================================================== *)
(** ** A chain registry and a set of well-behaved libraries *)
(* ===================================================================== *)

Module Registry.

Import Clients.

Definition mainnet : Chain := mkChain 1 "ethereum".
Definition optimism : Chain := mkChain 10 "optimism".
Definition arbitrum : Chain := mkChain 42161 "arbitrum".
Definition base : Chain := mkChain 8453 "base".

Definition chains : list Chain := [mainnet; optimism; arbitrum; base].

Definition by_name (name : string) : option Chain :=
  List.find (fun c => String.eqb (chain_name c) name) chains.
Definition by_id (id : Z) : option Chain :=
  List.find (fun c => Z.eqb (chain_id c) id) chains.

(** A numeric string as a chain id. *)
Definition numeric_id (s : string) : option Z :=
  (fun d => Z.of_N (N.of_uint d)) <$> NilZero.uint_of_string s.

Definition UnsupportedNetwork (identifier : string) : exn :=
  Js.Error ("Unsupported network: " +:+ identifier).

(** Modelled from the spec: [chains.ts] is not among the sources.
    Section 4.1: [resolveNetwork] accepts a well-known name or a numeric
    chain id, given as a number or as a numeric string, and fails with
    [UnsupportedNetwork] when nothing matches. The four chains are those
    [clients.ts] imports from viem. *)
Definition resolveNetwork (identifier : network_id) : result Chain :=
  match identifier with
  | NetId id =>
      match by_id id with
      | Some c => Ok c
      | None => Throw (UnsupportedNetwork (Bridge.chain_id_text id))
      end
  | NetName name =>
      match by_name name with
      | Some c => Ok c
      | None =>
          match numeric_id name ≫= by_id with
          | Some c => Ok c
          | None => Throw (UnsupportedNetwork name)
          end
      end
  end.

Definition getChain (identifier : network_id) : result (option Chain) :=
  match resolveNetwork identifier with
  | Ok c => Ok (Some c)
  | Throw e => Throw e
  end.

Definition getRpcUrl (identifier : network_id) : result string :=
  match resolveNetwork identifier with
  | Ok c => Ok ("https://rpc.example/" +:+ chain_name c)
  | Throw e => Throw e
  end.

(** Libraries that never throw; the account derived from a key records
    the key it was derived from. *)
Definition externals : Clients.externals :=
  mkExternals getChain getRpcUrl (fun _ _ => None)
              (fun key => Ok (mkAccount ("address-of:" +:+ key)))
              Some.

(** The same with an RPC configuration that cannot be read. *)
Definition misconfigured : Clients.externals :=
  mkExternals getChain (fun _ => Throw (Js.Error "RPC URL is not configured"))
              (fun _ _ => None)
              (fun key => Ok (mkAccount ("address-of:" +:+ key)))
              Some.

End Registry.

(* ===================================================================== *)
(** ** Concrete worlds for the examples *)
(* ===================================================================== *)

Module Scenarios.

(** A token with three decimals; names resolve to themselves, amounts are
    parsed by the codec and every submission is accepted. *)
Definition token : Transfer.externals :=
  Transfer.mkExternals Registry.externals
    (fun nameOrAddress _ => Ok nameOrAddress)
    (fun amount => Codec.toBaseUnits amount 18)
    Codec.toBaseUnits
    (fun _ _ => Ok 3)
    (fun _ _ => Ok "TKN")
    (fun _ _ => Ok "0xtransfer").

Definition deposit_hash : string := "0xdeposit".

Definition approve_error : Bridge.progress :=
  Bridge.mkProgress "approve" "txError" None None.
Definition deposit_success : Bridge.progress :=
  Bridge.mkProgress "deposit" "txSuccess" (Some deposit_hash) None.
Definition fill_success : Bridge.progress :=
  Bridge.mkProgress "fill" "txSuccess" (Some "0xfill") None.

(** A bridge world whose provider quotes and then sends [signals]. *)
Definition bridge (signals : list Bridge.signal) : Bridge.world :=
  Bridge.mkWorld (Some "0xkey") Registry.externals
    (fun amount => Codec.toBaseUnits amount 18)
    (fun _ _ => Ok "deposit-parameters")
    (fun _ _ => signals).

(** A bridge world whose provider refuses to quote. *)
Definition no_route : Bridge.world :=
  Bridge.mkWorld (Some "0xkey") Registry.externals
    (fun amount => Codec.toBaseUnits amount 18)
    (fun _ _ => Throw (Js.Error "No route"))
    (fun _ _ => []).

Definition swap_data : Swap.json :=
  Swap.JObject
    [("tx", Swap.JObject [("to", Swap.JString "0xrouter");
                          ("data", Swap.JString "0xcalldata");
                          ("value", Swap.JString "0")]);
     ("toAmount", Swap.JString "5");
     ("toToken", Swap.JObject [("symbol", Swap.JString "DAI");
                               ("decimals", Swap.JNumber 18)])].


Definition text_of (v : Swap.jsval) : string :=
  match v with
  | Some (Swap.JString s) => s
  | Some (Swap.JNumber _) => "18"
  | _ => "undefined"
  end.

(** A swap world whose aggregator answers the spender lookup and then
    the swap request with [data]. *)
Definition swap (data : Swap.json) : Swap.world :=
  Swap.mkWorld (Some "api-key") (Some "0xkey") Registry.externals
    (fun _ params =>
       match params with
       | None => Ok (Some (Swap.JObject [("address", Swap.JString "0xspender")]))
       | Some _ => Ok (Some data)
       end)
    (fun _ _ => Ok "0xswap")
    (fun _ => Ok 0%Z)
    text_of.

(** A swap world whose aggregator refuses every request. *)
Definition swap_unauthorized : Swap.world :=
  Swap.mkWorld (Some "api-key") (Some "0xkey") Registry.externals
    (fun _ _ => Throw (Js.Error "Request failed with status code 401"))
    (fun _ _ => Ok "0xswap")
    (fun _ => Ok 0%Z)
    text_of.

Definition swap_arguments (amount : string) (slippage : Swap.jsval) : Swap.arguments :=
  Swap.mkArguments (Some (Swap.JString "0xEeeeeEeeeEeEeeEeEeEeeEEEeeeeEeeeeeeeEEeE"))
                   (Some (Swap.JString "0xA0b86991c6218b36c1d19D4a2e9Eb0cE3606eB48"))
                   (Some (Swap.JString amount))
                   None slippage.

End Scenarios.

(* ===================================================================== *)
(** ** core/config.ts: getEnv *)
(* ===================================================================== *)

Module Env.

(** [getEnv(name, required = true, defaultValue?)]; [env] is
    [process.env]. *)
Definition getEnv (env : string -> option string) (name : string)
    (required : bool) (defaultValue : option string) : result string :=
  let value := env name in
  if negb (Js.truthy_opt value) && required
  then Throw (Js.Error ("Required environment variable " +:+ name +:+ " is not set"))
  else Ok (Js.or_default (Js.or_else value defaultValue) "").

End Env.

(* ===================================================================== *)
(** ** core/services/clients.ts: getAcrossClient, and runs of calls *)
(* ===================================================================== *)

Module AcrossClient.

(** The module-level [acrossClientInstance]: [None] is [null], an instance
    is known by the number of instances constructed before it. *)
Record state := mkState {
  acrossClientInstance : option nat;
  constructed : nat
}.

Definition initial : state := mkState None 0.

(** [getAcrossClient()] *)
Definition getAcrossClient (st : state) : nat * state :=
  match acrossClientInstance st with
  | Some instance => (instance, st)
  | None =>
      let instance := constructed st in
      (instance, mkState (Some instance) (S (constructed st)))
  end.

(** The instances returned by [n] calls in a row, and the state after. *)
Fixpoint calls (n : nat) (st : state) : list nat * state :=
  match n with
  | O => ([], st)
  | S n' =>
      let '(instance, st1) := getAcrossClient st in
      let '(rest, st2) := calls n' st1 in
      (instance :: rest, st2)
  end.

End AcrossClient.

Module ClientRuns.

Import Clients.

(** The state after a series of [getPublicClient] calls; each call comes
    with the registry and libraries in force when it is made. *)
Definition reads (calls : list (externals * string)) (st : state) : state :=
  fold_left (fun st call => (getPublicClient call.1 call.2 st).2) calls st.

(** What holds of every state the cache can reach. *)
Definition well_formed (st : state) : Prop :=
  size (clientCache st) = constructed st /\
  (forall k client, clientCache st !! k = Some client -> pc_ref client < constructed st) /\
  (forall k1 k2 c1 c2,
      clientCache st !! k1 = Some c1 -> clientCache st !! k2 = Some c2 ->
      pc_ref c1 = pc_ref c2 -> k1 = k2).

End ClientRuns.

(* ===================================================================== *)
(** ** core/services/blocks.ts *)
(* ===================================================================== *)

Module Blocks.

Import Clients.

(** A JavaScript number: a rational, [NaN] or an infinity. *)
Inductive js_number :=
| Num (q : Q)
| NaN
| Infinity (negative : bool).

(** The argument of [client.getBlock]. *)
Inductive selector :=
| ByNumber (blockNumber : Z)
| ByHash (blockHash : string)
| Latest.

(** The requests a read client sends. *)
Inductive request :=
| GetBlockNumber (client : PublicClient)
| GetBlock (client : PublicClient) (which : selector).

(** The registry and viem, the two RPC methods, and the text of a number
    in an error message. *)
Record externals := mkExternals {
  clients : Clients.externals;
  rpc_getBlockNumber : PublicClient -> result N;
  rpc_getBlock : PublicClient -> selector -> result string;
  number_text : js_number -> string
}.

Definition is_integer (q : Q) : bool :=
  Z.eqb (Qnum q mod Zpos (Qden q)) 0.

(** [BigInt(n)] on a number: a [RangeError] unless [n] is an integer. *)
Definition BigInt (number_text : js_number -> string) (n : js_number) : result Z :=
  let RangeError :=
    let msg := "The number " +:+ number_text n
               +:+ " cannot be converted to a BigInt because it is not an integer" in
    Js.mkExn true (Some msg) None None None ("RangeError: " +:+ msg) in
  match n with
  | Num q => if is_integer q then Ok (Qnum q / Zpos (Qden q))%Z else Throw RangeError
  | NaN => Throw RangeError
  | Infinity _ => Throw RangeError
  end.

(** [n] is the integer [z]. *)
Definition integral (n : js_number) (z : Z) : Prop :=
  exists q, n = Num q /\ (q == inject_Z z)%Q.

Section WithExternals.
Variable ext : externals.

(** [getBlockNumber(network)] *)
Definition getBlockNumber (network : string) (st : state)
  : result N * state * list request :=
  match getPublicClient (clients ext) network st with
  | (Throw e, st1) => (Throw e, st1, [])
  | (Ok client, st1) => (rpc_getBlockNumber ext client, st1, [GetBlockNumber client])
  end.

(** [getBlockByNumber(blockNumber, network)] *)
Definition getBlockByNumber (blockNumber : js_number) (network : string) (st : state)
  : result string * state * list request :=
  match getPublicClient (clients ext) network st with
  | (Throw e, st1) => (Throw e, st1, [])
  | (Ok client, st1) =>
      match BigInt (number_text ext) blockNumber with
      | Throw e => (Throw e, st1, [])
      | Ok n => (rpc_getBlock ext client (ByNumber n), st1, [GetBlock client (ByNumber n)])
      end
  end.

(** [getBlockByHash(blockHash, network)] *)
Definition getBlockByHash (blockHash : string) (network : string) (st : state)
  : result string * state * list request :=
  match getPublicClient (clients ext) network st with
  | (Throw e, st1) => (Throw e, st1, [])
  | (Ok client, st1) =>
      (rpc_getBlock ext client (ByHash blockHash), st1, [GetBlock client (ByHash blockHash)])
  end.

(** [getLatestBlock(network)] *)
Definition getLatestBlock (network : string) (st : state)
  : result string * state * list request :=
  match getPublicClient (clients ext) network st with
  | (Throw e, st1) => (Throw e, st1, [])
  | (Ok client, st1) => (rpc_getBlock ext client Latest, st1, [GetBlock client Latest])
  end.

(** One of the four reads, for statements about all of them: the state it
    leaves and the requests it sends. *)
Inductive read :=
| ReadBlockNumber
| ReadBlockByNumber (blockNumber : js_number)
| ReadBlockByHash (blockHash : string)
| ReadLatestBlock.

Definition perform (r : read) (network : string) (st : state) : state * list request :=
  match r with
  | ReadBlockNumber => let '(_, st1, sent) := getBlockNumber network st in (st1, sent)
  | ReadBlockByNumber n => let '(_, st1, sent) := getBlockByNumber n network st in (st1, sent)
  | ReadBlockByHash h => let '(_, st1, sent) := getBlockByHash h network st in (st1, sent)
  | ReadLatestBlock => let '(_, st1, sent) := getLatestBlock network st in (st1, sent)
  end.

Definition client_of (r : request) : PublicClient :=
  match r with
  | GetBlockNumber client => client
  | GetBlock client _ => client
  end.

End WithExternals.

End Blocks.

(* ===================================================================== *)
(** ** core/tools.ts: the transfer tools, resolve_ens and
       get_token_contract_address *)
(* ===================================================================== *)

Module Tools.

Import Clients.

(** What these handlers return: the text content and the [isError] flag. *)
Record tool_result := mkResult {
  text : string;
  isError : bool
}.

Definition failure (msg : string) : tool_result := mkResult msg true.
Definition success (msg : string) : tool_result := mkResult msg false.

(** The calls [resolve_ens] makes. *)
Inductive ens_call :=
| Normalize (name : string)
| ResolveAddress (name network : string).

(** The environment, the services' libraries, viem's [normalize] and
    [JSON.stringify(v, null, 2)]. *)
Record world := mkWorld {
  WALLET_PRIVATE_KEY : option string;
  services : Transfer.externals;
  normalize : string -> result string;
  JSON_stringify : Swap.json -> string
}.

Definition message_of := Bridge.message_of.

Definition key_missing : tool_result :=
  failure "Error: WALLET_PRIVATE_KEY environment variable is not set. Please add it to your .local.env file.".

(** The default of the destructured [network = "ethereum"]. *)
Definition network_or_default (network : option string) : string :=
  match network with
  | Some n => n
  | None => "ethereum"
  end.

(** [transfer_eth] *)
Definition transfer_eth (w : world) (to amount : string) (network : option string)
  : tool_result * list Transfer.submission :=
  let network := network_or_default network in
  if negb (Js.truthy_opt (WALLET_PRIVATE_KEY w)) then (key_missing, [])
  else
  match WALLET_PRIVATE_KEY w with
  | None => (key_missing, [])
  | Some privateKey =>
      match Transfer.transferETH (services w) privateKey to amount network with
      | (Ok txHash, sent) =>
          (success (JSON_stringify w (Swap.JObject
             [("success", Swap.JBool true); ("txHash", Swap.JString txHash);
              ("to", Swap.JString to); ("amount", Swap.JString amount);
              ("network", Swap.JString network)])), sent)
      | (Throw e, sent) => (failure ("Error transferring ETH: " +:+ message_of e), sent)
      end
  end.

(** [transfer_erc20] *)
Definition transfer_erc20 (w : world) (tokenAddress toAddress amount : string)
    (network : option string) (st : state)
  : tool_result * state * list Transfer.submission :=
  let network := network_or_default network in
  if negb (Js.truthy_opt (WALLET_PRIVATE_KEY w)) then (key_missing, st, [])
  else
  match WALLET_PRIVATE_KEY w with
  | None => (key_missing, st, [])
  | Some privateKey =>
      let formattedKey :=
        if Js.startsWith privateKey "0x" then privateKey else "0x" +:+ privateKey in
      match Transfer.transferERC20 (services w) tokenAddress toAddress amount
                                   formattedKey network st with
      | (Ok result, st1, sent) =>
          (success (JSON_stringify w (Swap.JObject
             [("success", Swap.JBool true);
              ("txHash", Swap.JString (Transfer.txHash result));
              ("network", Swap.JString network);
              ("tokenAddress", Swap.JString tokenAddress);
              ("recipient", Swap.JString toAddress);
              ("amount", Swap.JString (Transfer.formatted (Transfer.amount result)));
              ("symbol", Swap.JString (Transfer.symbol (Transfer.token result)))])),
           st1, sent)
      | (Throw e, st1, sent) =>
          (failure ("Error transferring ERC20 tokens: " +:+ message_of e), st1, sent)
      end
  end.

(** [approve_token_spending] *)
Definition approve_token_spending (w : world)
    (tokenAddress spenderAddress amount : string)
    (network : option string) (st : state)
  : tool_result * state * list Transfer.submission :=
  let network := network_or_default network in
  if negb (Js.truthy_opt (WALLET_PRIVATE_KEY w)) then (key_missing, st, [])
  else
  match WALLET_PRIVATE_KEY w with
  | None => (key_missing, st, [])
  | Some privateKey =>
      let formattedKey :=
        if Js.startsWith privateKey "0x" then privateKey else "0x" +:+ privateKey in
      match Transfer.approveERC20 (services w) tokenAddress spenderAddress amount
                                  formattedKey network st with
      | (Ok result, st1, sent) =>
          (success (JSON_stringify w (Swap.JObject
             [("success", Swap.JBool true);
              ("txHash", Swap.JString (Transfer.txHash result));
              ("network", Swap.JString network);
              ("tokenAddress", Swap.JString tokenAddress);
              ("spender", Swap.JString spenderAddress);
              ("amount", Swap.JString (Transfer.formatted (Transfer.amount result)));
              ("symbol", Swap.JString (Transfer.symbol (Transfer.token result)))])),
           st1, sent)
      | (Throw e, st1, sent) =>
          (failure ("Error approving token spending: " +:+ message_of e), st1, sent)
      end
  end.

(** [transfer_token]: the key is an argument of the tool. *)
Definition transfer_token (w : world)
    (privateKey tokenAddress toAddress amount : string)
    (network : option string) (st : state)
  : tool_result * state * list Transfer.submission :=
  let network := network_or_default network in
  match Transfer.transferERC20 (services w) tokenAddress toAddress amount
                               privateKey network st with
  | (Ok result, st1, sent) =>
      (success (JSON_stringify w (Swap.JObject
         [("success", Swap.JBool true);
          ("txHash", Swap.JString (Transfer.txHash result));
          ("tokenAddress", Swap.JString tokenAddress);
          ("toAddress", Swap.JString toAddress);
          ("amount", Swap.JString (Transfer.formatted (Transfer.amount result)));
          ("symbol", Swap.JString (Transfer.symbol (Transfer.token result)));
          ("network", Swap.JString network)])),
       st1, sent)
  | (Throw e, st1, sent) =>
      (failure ("Error transferring tokens: " +:+ message_of e), st1, sent)
  end.

(** The four tools that submit, for statements about all of them. *)
Inductive submitting_tool :=
| TransferEth (to amount : string)
| TransferErc20 (tokenAddress toAddress amount : string)
| ApproveTokenSpending (tokenAddress spenderAddress amount : string)
| TransferToken (privateKey tokenAddress toAddress amount : string).

Definition call (w : world) (tool : submitting_tool) (network : option string)
    (st : state) : tool_result * list Transfer.submission :=
  match tool with
  | TransferEth to amount => transfer_eth w to amount network
  | TransferErc20 token to amount =>
      let '(r, _, sent) := transfer_erc20 w token to amount network st in (r, sent)
  | ApproveTokenSpending token spender amount =>
      let '(r, _, sent) := approve_token_spending w token spender amount network st in
      (r, sent)
  | TransferToken key token to amount =>
      let '(r, _, sent) := transfer_token w key token to amount network st in (r, sent)
  end.

(** The key a tool signs with, before normalisation: the argument of
    [transfer_token], the environment's for the others. *)
Definition key_of (w : world) (tool : submitting_tool) : option string :=
  match tool with
  | TransferToken key _ _ _ => Some key
  | _ => WALLET_PRIVATE_KEY w
  end.

(** [s.includes('.')] *)
Definition includes_point (s : string) : bool :=
  existsb Codec.is_point (String.list_ascii_of_string s).

(** The double quote character, for the message of [resolve_ens]. *)
Definition quote : string := String (Ascii.ascii_of_nat 34) EmptyString.

(** [resolve_ens]: the result and the calls made, in order. *)
Definition resolve_ens (w : world) (ensName : string) (network : option string)
  : tool_result * list ens_call :=
  let network := network_or_default network in
  if negb (includes_point ensName)
  then (failure ("Error: Input " +:+ quote +:+ ensName +:+ quote
                 +:+ " is not a valid ENS name. ENS names must contain a dot (e.g., 'name.eth')."),
        [])
  else
  match normalize w ensName with
  | Throw e => (failure ("Error resolving ENS name: " +:+ message_of e), [Normalize ensName])
  | Ok normalizedEns =>
      match Transfer.resolveAddress (services w) ensName network with
      | Throw e =>
          (failure ("Error resolving ENS name: " +:+ message_of e),
           [Normalize ensName; ResolveAddress ensName network])
      | Ok address =>
          (success (JSON_stringify w (Swap.JObject
             [("ensName", Swap.JString ensName);
              ("normalizedName", Swap.JString normalizedEns);
              ("resolvedAddress", Swap.JString address);
              ("network", Swap.JString network)])),
           [Normalize ensName; ResolveAddress ensName network])
      end
  end.

End Tools.

Module TokenLookup.

(** A token and a chain of the Across SDK's [getSupportedChains], as far
    as the handler reads them. *)
Record TokenInfo := mkToken { symbol : string; address : string }.

Record ChainInfo := mkChain {
  chainId : Z;
  name : string;
  inputTokens : list TokenInfo;
  outputTokens : list TokenInfo
}.

(** [chainIdentifier]: [z.union([z.string(), z.number()])]. *)
Inductive chain_identifier :=
| ChainName (name : string)
| ChainNumber (id : Q).

Record lookup_result := mkResult {
  text : string;
  isError : bool;
  contractAddress : option string
}.

Section WithBuiltins.
(** [s.toLowerCase()] and the text of a number in a template string. *)
Variable toLowerCase : string -> string.
Variable number_text : Q -> string.

Definition identifier_text (chainIdentifier : chain_identifier) : string :=
  match chainIdentifier with
  | ChainName s => s
  | ChainNumber n => number_text n
  end.

(** The predicate of [chains.find]. *)
Definition chain_matches (chainIdentifier : chain_identifier) (chain : ChainInfo) : bool :=
  match chainIdentifier with
  | ChainNumber n => Qeq_bool (inject_Z (chainId chain)) n
  | ChainName s => String.eqb (toLowerCase (name chain)) (toLowerCase s)
  end.

(** The predicate of the two [find]s over the tokens. *)
Definition symbol_matches (normalizedTokenSymbol : string) (token : TokenInfo) : bool :=
  String.eqb (toLowerCase (symbol token)) normalizedTokenSymbol.

(** The handler of [get_token_contract_address]; [chains] is the
    module-level list loaded from the SDK. *)
Definition get_token_contract_address (chains : list ChainInfo)
    (chainIdentifier : chain_identifier) (tokenSymbol : string) : lookup_result :=
  match List.find (chain_matches chainIdentifier) chains with
  | None =>
      mkResult ("Chain '" +:+ identifier_text chainIdentifier
                +:+ "' not found or not supported by Across.") true None
  | Some targetChain =>
      let normalizedTokenSymbol := toLowerCase tokenSymbol in
      let foundToken :=
        match List.find (symbol_matches normalizedTokenSymbol) (inputTokens targetChain) with
        | Some token => Some token
        | None => List.find (symbol_matches normalizedTokenSymbol) (outputTokens targetChain)
        end in
      match foundToken with
      | None =>
          mkResult ("Token symbol '" +:+ tokenSymbol +:+ "' not found on chain '"
                    +:+ name targetChain +:+ "' (ID: "
                    +:+ Bridge.chain_id_text (chainId targetChain) +:+ ").") true None
      | Some foundToken =>
          mkResult ("Contract address for " +:+ tokenSymbol +:+ " on " +:+ name targetChain
                    +:+ " (Chain ID: " +:+ Bridge.chain_id_text (chainId targetChain)
                    +:+ ") is " +:+ address foundToken)
                   false (Some (address foundToken))
      end
  end.

End WithBuiltins.

End TokenLookup.

Module MoreScenarios.

(** Lower case on the ASCII letters, for the examples. *)
Definition lower_ascii (c : ascii) : ascii :=
  let n := Ascii.nat_of_ascii c in
  if (65 <=? n)%nat && (n <=? 90)%nat then Ascii.ascii_of_nat (n + 32) else c.

Fixpoint lower (s : string) : string :=
  match s with
  | EmptyString => EmptyString
  | String c s' => String (lower_ascii c) (lower s')
  end.

Definition across_chains : list TokenLookup.ChainInfo :=
  [TokenLookup.mkChain 1 "Ethereum"
     [TokenLookup.mkToken "WETH" "0xC02aaA39b223FE8D0A0e5C4F27eAD9083C756Cc2"]
     [TokenLookup.mkToken "USDC" "0xA0b86991c6218b36c1d19D4a2e9Eb0cE3606eB48"];
   TokenLookup.mkChain 10 "Optimism"
     [TokenLookup.mkToken "WETH" "0x4200000000000000000000000000000000000006"]
     []].

End MoreScenarios.

Module BridgeSignals.

Import Bridge.

(** The signals on which the callbacks call [resolve] or [reject]: a
    rejection of [executeQuote], a progress event with an error status,
    and a [deposit] event with status [txSuccess]. *)
Definition settling (s : signal) : bool :=
  match s with
  | ExecuteRejected _ => true
  | Progress p =>
      (String.eqb (step p) "deposit" && String.eqb (status p) "txSuccess")
      || String.eqb (status p) "txError" || String.eqb (status p) "error"
  end.

End BridgeSignals.

(* ===================================================================== *)
(** ** client: lib/mcp-client-manager.ts *)
(* ===================================================================== *)

Module McpManager.

(** The fields of the manager; [connections] counts the calls of
    [experimental_createMCPClient], and a client is known by the number of
    the connection that produced it. [tools] holds the tool names. *)
Record state := mkState {
  mcpClient : option nat;
  tools : list string;
  isInitializing : bool;
  initPromise : bool;
  connections : nat
}.

Definition initial : state := mkState None [] false false 0.

(** [hasTools()] *)
Definition hasTools (s : state) : bool :=
  match tools s with
  | [] => false
  | _ => true
  end.

(** What happens to the manager: a caller enters [getClient], or one of
    the two awaited promises of [initialize] settles. *)
Inductive event :=
| GetClient
| ConnectResolved
| ConnectRejected
| ToolsResolved (loaded : list string)
| ToolsRejected.

(** [initialize] is waiting for [experimental_createMCPClient]. *)
Definition connecting (s : state) : bool :=
  isInitializing s && negb (bool_decide (is_Some (mcpClient s))).

(** [initialize] is waiting for [mcpClient.tools()]. *)
Definition loading (s : state) : bool :=
  isInitializing s && bool_decide (is_Some (mcpClient s)).

(** One event. [GetClient] runs [getClient] up to its first [await]; a
    settlement runs [initialize] on from the [await] it ends, through
    [catch] and [finally]. A settlement nobody waits for changes nothing. *)
Definition step (e : event) (s : state) : state :=
  match e with
  | GetClient =>
      if negb (bool_decide (is_Some (mcpClient s))) && negb (isInitializing s)
      then mkState (mcpClient s) (tools s) true true (S (connections s))
      else s
  | ConnectResolved =>
      if connecting s
      then mkState (Some (connections s)) (tools s) true (initPromise s) (connections s)
      else s
  | ConnectRejected =>
      if connecting s
      then mkState None [] false (initPromise s) (connections s)
      else s
  | ToolsResolved loaded =>
      if loading s
      then mkState (mcpClient s) loaded false (initPromise s) (connections s)
      else s
  | ToolsRejected =>
      if loading s
      then mkState None [] false (initPromise s) (connections s)
      else s
  end.

Definition run (events : list event) (s : state) : state :=
  fold_left (fun s e => step e s) events s.

(** The failed settlements among the events. *)
Definition is_failure (e : event) : bool :=
  match e with
  | ConnectRejected | ToolsRejected => true
  | _ => false
  end.

Definition failures (events : list event) : nat :=
  length (List.filter is_failure events).

End McpManager.

(* ===================================================================== *)
(** ** Keys and signers *)
(* ===================================================================== *)

Module Keys.

Import Clients.

(** A configuration with another [privateKeyToAccount] in place of its
    own; every configuration is one of these, with its own signer. *)
Definition with_signer (signer : string -> result Account) (c : externals) : externals :=
  mkExternals (getChain c) (getRpcUrl c) (createPublicClient_throws c)
              signer (createWalletClient_account c).

(** A signer that knows one key and refuses every other. *)
Definition only (key : string) (c : externals) : string -> result Account :=
  fun privateKey =>
    if String.eqb privateKey key then privateKeyToAccount c privateKey
    else Throw (Js.Error "invalid private key").

(** The worlds of the scenarios, with [WALLET_PRIVATE_KEY] set to [key]. *)
Definition swap_with_key (key : string) : Swap.world :=
  let w := Scenarios.swap Scenarios.swap_data in
  Swap.mkWorld (Swap.ONEINCH_API_KEY w) (Some key) (Swap.clients w) (Swap.axios_get w)
               (Swap.sendTransaction w) (Swap.js_BigInt w) (Swap.js_text w).

Definition bridge_with_key (key : string) : Bridge.world :=
  let w := Scenarios.bridge [Bridge.Progress Scenarios.deposit_success] in
  Bridge.mkWorld (Some key) (Bridge.clients w) (Bridge.parseEther w)
                 (Bridge.getQuote w) (Bridge.executeQuote w).

Definition swap_input : Swap.input :=
  Swap.mkInput "0xEeeeeEeeeEeEeeEeEeEeeEEEeeeeEeeeeeeeEEeE"
               "0xA0b86991c6218b36c1d19D4a2e9Eb0cE3606eB48" "1000" "ethereum" 1.

End Keys.

(* ===================================================================== *)
(** * Properties *)
(* ===================================================================== *)

(** Case analysis on the scrutinee of the first [match] of the goal. *)
Ltac break_match :=
  match goal with
  | |- context [match ?x with _ => _ end] => destruct x eqn:?
  end.

(** ** The read-client cache *)

Module ClientsFacts.

Import Clients.

Lemma getPublicClient_cached ext network st client :
  clientCache st !! network = Some client ->
  getPublicClient ext network st = (Ok client, st).
Proof. intros H. unfold getPublicClient. rewrite H. reflexivity. Qed.

(** A call that returns a client leaves it in the cache under the
    identifier it was called with. *)
Lemma getPublicClient_stores ext network st client st1 :
  getPublicClient ext network st = (Ok client, st1) ->
  clientCache st1 !! network = Some client.
Proof.
  unfold getPublicClient.
  destruct (clientCache st !! network) as [c|] eqn:Hc.
  - intros [= <- <-]. exact Hc.
  - destruct (getChain ext _) as [chain|]; [|discriminate].
    destruct (getRpcUrl ext _) as [rpcUrl|]; [|discriminate].
    destruct (createPublicClient_throws ext chain rpcUrl); [discriminate|].
    intros [= <- <-]. simpl. apply lookup_insert_eq.
Qed.

Lemma getPublicClient_other_keys ext network st r st1 k :
  getPublicClient ext network st = (r, st1) ->
  k <> network ->
  clientCache st1 !! k = clientCache st !! k.
Proof.
  unfold getPublicClient.
  destruct (clientCache st !! network) as [c|] eqn:Hc.
  - intros [= <- <-]. reflexivity.
  - destruct (getChain ext _) as [chain|]; [|intros [= <- <-]; reflexivity].
    destruct (getRpcUrl ext _) as [rpcUrl|]; [|intros [= <- <-]; reflexivity].
    destruct (createPublicClient_throws ext chain rpcUrl); [intros [= <- <-]; reflexivity|].
    intros [= <- <-] Hk. simpl. apply lookup_insert_ne. congruence.
Qed.

(** A failing call changes nothing. *)
Lemma getPublicClient_throw_state ext network st e st1 :
  getPublicClient ext network st = (Throw e, st1) -> st1 = st.
Proof.
  unfold getPublicClient.
  destruct (clientCache st !! network) as [c|]; [discriminate|].
  destruct (getChain ext _) as [chain|]; [|intros [= _ <-]; reflexivity].
  destruct (getRpcUrl ext _) as [rpcUrl|]; [|intros [= _ <-]; reflexivity].
  destruct (createPublicClient_throws ext chain rpcUrl); [intros [= _ <-]; reflexivity|].
  discriminate.
Qed.

(** C6, as the code has it: two calls to [getPublicClient] with the same
    identifier return the identical memoized client; the second call
    constructs nothing and leaves the whole state as it was. The client is
    stored under the identifier string it was requested with,
    [String(network)], and no other key of the cache is touched: there is
    one read client per identifier string. *)
Theorem getPublicClient_same_identifier ext network st client st1 :
  getPublicClient ext network st = (Ok client, st1) ->
  getPublicClient ext network st1 = (Ok client, st1) /\
  clientCache st1 !! network = Some client /\
  (forall k, k <> network -> clientCache st1 !! k = clientCache st !! k).
Proof.
  intros H. pose proof (getPublicClient_stores _ _ _ _ _ H) as Hs.
  split; [|split].
  - apply getPublicClient_cached, Hs.
  - exact Hs.
  - intros k Hk. eapply getPublicClient_other_keys; eauto.
Qed.

Lemma getPublicClient_same_identifier_witness :
  let client := mkPublicClient 0 (Some Registry.mainnet) "https://rpc.example/ethereum" in
  let st1 := mkState {[ "ethereum" := client ]} 1 in
  getPublicClient Registry.externals "ethereum" st1 = (Ok client, st1) /\
  clientCache st1 !! "ethereum" = Some client /\
  (forall k, k <> "ethereum" -> clientCache st1 !! k = clientCache initial !! k).
Proof.
  apply (getPublicClient_same_identifier Registry.externals "ethereum" initial).
  reflexivity.
Defined.

(** C6 as stated fails: the cache key is the identifier as passed, not a
    canonical key of the resolved network. Asking for the main network by
    name and then by its chain id constructs two clients for the one
    chain, and both stay in the cache. *)
Lemma getPublicClient_alias_counterexample :
  let url := "https://rpc.example/ethereum" in
  let first := getPublicClient Registry.externals "ethereum" initial in
  let second := getPublicClient Registry.externals "1" first.2 in
  first.1 = Ok (mkPublicClient 0 (Some Registry.mainnet) url) /\
  second.1 = Ok (mkPublicClient 1 (Some Registry.mainnet) url) /\
  clientCache second.2 !! "ethereum" = Some (mkPublicClient 0 (Some Registry.mainnet) url) /\
  clientCache second.2 !! "1" = Some (mkPublicClient 1 (Some Registry.mainnet) url) /\
  size (clientCache second.2) = 2.
Proof. vm_compute. repeat split; reflexivity. Qed.

(** C7: when the construction of a read client fails (the registry does
    not know the network, the RPC URL cannot be obtained, or the
    constructor throws), [getPublicClient] fails with that error and the
    state, the cache included, is what it was: no entry exists for the
    key. A later call under a configuration whose construction succeeds
    returns a fresh client and stores it. *)
Theorem getPublicClient_failure_keeps_cache ext network st :
  clientCache st !! network = None ->
  (exists e, getChain ext (NetName network) = Throw e) \/
  (exists chain e, getChain ext (NetName network) = Ok chain /\
                   getRpcUrl ext (NetName network) = Throw e) \/
  (exists chain rpcUrl e, getChain ext (NetName network) = Ok chain /\
                          getRpcUrl ext (NetName network) = Ok rpcUrl /\
                          createPublicClient_throws ext chain rpcUrl = Some e) ->
  exists e,
    getPublicClient ext network st = (Throw e, st) /\
    clientCache st !! network = None /\
    forall ext' chain rpcUrl,
      getChain ext' (NetName network) = Ok chain ->
      getRpcUrl ext' (NetName network) = Ok rpcUrl ->
      createPublicClient_throws ext' chain rpcUrl = None ->
      exists client st2,
        getPublicClient ext' network st = (Ok client, st2) /\
        pc_chain client = chain /\ pc_rpcUrl client = rpcUrl /\
        clientCache st2 !! network = Some client.
Proof.
  intros Hnone Hfail.
  assert (Hretry : forall ext' chain rpcUrl,
    getChain ext' (NetName network) = Ok chain ->
    getRpcUrl ext' (NetName network) = Ok rpcUrl ->
    createPublicClient_throws ext' chain rpcUrl = None ->
    exists client st2,
      getPublicClient ext' network st = (Ok client, st2) /\
      pc_chain client = chain /\ pc_rpcUrl client = rpcUrl /\
      clientCache st2 !! network = Some client).
  { intros ext' chain rpcUrl Hc Hu Hk. unfold getPublicClient.
    rewrite Hnone, Hc, Hu, Hk. do 2 eexists. split; [reflexivity|].
    simpl. repeat split. apply lookup_insert_eq. }
  assert (Hthrow : exists e, getPublicClient ext network st = (Throw e, st)).
  { unfold getPublicClient. rewrite Hnone.
    destruct Hfail as [[e He]|[(chain & e & Hc & He)|(chain & rpcUrl & e & Hc & Hu & He)]].
    - rewrite He. eauto.
    - rewrite Hc, He. eauto.
    - rewrite Hc, Hu, He. eauto. }
  destruct Hthrow as [e He]. exists e. auto.
Qed.

Lemma getPublicClient_failure_keeps_cache_witness :
  exists e,
    getPublicClient Registry.misconfigured "ethereum" initial = (Throw e, initial) /\
    clientCache initial !! "ethereum" = None /\
    forall ext' chain rpcUrl,
      getChain ext' (NetName "ethereum") = Ok chain ->
      getRpcUrl ext' (NetName "ethereum") = Ok rpcUrl ->
      createPublicClient_throws ext' chain rpcUrl = None ->
      exists client st2,
        getPublicClient ext' "ethereum" initial = (Ok client, st2) /\
        pc_chain client = chain /\ pc_rpcUrl client = rpcUrl /\
        clientCache st2 !! "ethereum" = Some client.
Proof.
  apply (getPublicClient_failure_keeps_cache Registry.misconfigured "ethereum" initial).
  - apply lookup_empty.
  - right; left. exists (Some Registry.mainnet), (Js.Error "RPC URL is not configured").
    split; reflexivity.
Defined.

End ClientsFacts.

(** ** The amount codec *)

Module CodecFacts.

Import Codec.
Local Open Scope char_scope.
Local Open Scope list_scope.


Lemma list_string_list l :
  String.list_ascii_of_string (String.string_of_list_ascii l) = l.
Proof. apply String.list_ascii_of_string_of_list_ascii. Qed.

Lemma trim_leading_zeros_uint d :
  String.list_ascii_of_string (NilEmpty.string_of_uint (Decimal.nzhead d)) =
  trim_leading_zeros (String.list_ascii_of_string (NilEmpty.string_of_uint d)).
Proof. induction d; simpl; auto. Qed.

Lemma toString_of_uint d :
  toString (N.of_uint d) =
  or_zero (trim_leading_zeros (String.list_ascii_of_string (NilEmpty.string_of_uint d))).
Proof.
  unfold toString. rewrite DecimalN.Unsigned.to_of.
  rewrite <- trim_leading_zeros_uint. unfold Decimal.unorm.
  destruct (Decimal.nzhead d) eqn:E; reflexivity.
Qed.

Lemma digits_uint l :
  forallb is_digit l = true ->
  exists d, NilEmpty.uint_of_string (String.string_of_list_ascii l) = Some d.
Proof.
  induction l as [|c l IH]; simpl; intros H.
  - eauto.
  - apply andb_prop in H as [Hc Hl]. destruct (IH Hl) as [d ->].
    destruct c as [[] [] [] [] [] [] [] []]; simpl in Hc; try discriminate; simpl; eauto.
Qed.

Lemma toString_BigInt l n :
  BigInt l = Some n -> toString n = or_zero (trim_leading_zeros l).
Proof.
  unfold BigInt. destruct (NilEmpty.uint_of_string _) as [d|] eqn:E; simpl; intros [= <-].
  apply NilEmpty.sus in E. rewrite toString_of_uint, E, list_string_list. reflexivity.
Qed.

Lemma trim_leading_zeros_replicate n l :
  trim_leading_zeros (replicate n "0" ++ l) = trim_leading_zeros l.
Proof. induction n; simpl; auto. Qed.

Lemma trim_leading_zeros_app l1 l2 :
  trim_leading_zeros l1 <> [] ->
  trim_leading_zeros (l1 ++ l2) = trim_leading_zeros l1 ++ l2.
Proof.
  induction l1 as [|c l1 IH]; simpl; [congruence|].
  destruct (is_zero c); auto.
Qed.

Lemma trim_leading_zeros_app_nil l1 l2 :
  trim_leading_zeros l1 = [] ->
  trim_leading_zeros (l1 ++ l2) = trim_leading_zeros l2.
Proof.
  induction l1 as [|c l1 IH]; simpl; auto.
  destruct (is_zero c); auto; congruence.
Qed.

Lemma trim_leading_zeros_length l : length (trim_leading_zeros l) <= length l.
Proof. induction l as [|c l IH]; simpl; [lia|]. destruct (is_zero c); simpl; lia. Qed.

(** Padding the trimmed digits back to the original width restores them. *)
Lemma padStart_trim l :
  l <> [] ->
  padStart (or_zero (trim_leading_zeros l)) (length l) = l.
Proof.
  unfold padStart. induction l as [|c l IH]; [congruence|]. intros _. simpl.
  destruct (is_zero c) eqn:Hc.
  - apply Ascii.eqb_eq in Hc. subst c.
    destruct l as [|c' l]; [reflexivity|].
    specialize (IH ltac:(congruence)).
    pose proof (trim_leading_zeros_length (c' :: l)) as Hlen.
    assert (Hz : 0 < length (or_zero (trim_leading_zeros (c' :: l)))).
    { destruct (trim_leading_zeros (c' :: l)); simpl; lia. }
    assert (Hle : length (or_zero (trim_leading_zeros (c' :: l))) <= length (c' :: l)).
    { destruct (trim_leading_zeros (c' :: l)) eqn:E; simpl in *; lia. }
    replace (S (length (c' :: l)) - length (or_zero (trim_leading_zeros (c' :: l))))
      with (S (length (c' :: l) - length (or_zero (trim_leading_zeros (c' :: l))))) by lia.
    simpl replicate. simpl. f_equal. exact IH.
  - simpl. replace (length l - length l) with 0 by lia.
    destruct (length l - S (length l)) eqn:E; [reflexivity|lia].
Qed.

Lemma padStart_long l n : n <= length l -> padStart l n = l.
Proof. unfold padStart. intros H. replace (n - length l) with 0 by lia. reflexivity. Qed.

Lemma take_suffix (l1 l2 : list ascii) :
  take (length (l1 ++ l2) - length l2) (l1 ++ l2) = l1.
Proof.
  replace (length (l1 ++ l2) - length l2) with (length l1)
    by (rewrite length_app; lia).
  apply take_app_length.
Qed.

Lemma drop_suffix (l1 l2 : list ascii) :
  drop (length (l1 ++ l2) - length l2) (l1 ++ l2) = l2.
Proof.
  replace (length (l1 ++ l2) - length l2) with (length l1)
    by (rewrite length_app; lia).
  apply drop_app_length.
Qed.

Lemma trim_trailing_zeros_padEnd l n :
  trim_trailing_zeros (padEnd l n) = trim_trailing_zeros l.
Proof.
  unfold trim_trailing_zeros, padEnd.
  rewrite reverse_app, reverse_replicate, trim_leading_zeros_replicate. reflexivity.
Qed.

Lemma split_point_spec l integer fraction :
  split_point l = (integer, fraction) ->
  (l = integer \/ l = integer ++ "." :: fraction) /\
  Forall (fun c => is_point c = false) integer /\
  (l = integer -> fraction = []).
Proof.
  revert integer fraction. induction l as [|c l IH]; simpl; intros integer fraction.
  - intros [= <- <-]. auto.
  - destruct (is_point c) eqn:Hc.
    + intros [= <- <-]. apply Ascii.eqb_eq in Hc. subst c.
      split; [right; reflexivity|]. split; [constructor|]. discriminate.
    + destruct (split_point l) as [i f] eqn:E. intros [= <- <-].
      destruct (IH _ _ eq_refl) as (Hl & Hi & Hf). split; [|split].
      * destruct Hl as [->| ->]; [left|right]; reflexivity.
      * constructor; auto.
      * intros [= H]. auto.
Qed.

(** The round trip on the two digit strings around the point. *)
Lemma roundtrip_digits integer fraction decimals raw :
  length fraction <= decimals ->
  BigInt (integer ++ padEnd fraction decimals) = Some raw ->
  toHumanUnits raw decimals =
  String.string_of_list_ascii
    (render (trim_leading_zeros integer) (trim_trailing_zeros fraction)).
Proof.
  intros Hlen Hraw. unfold toHumanUnits. f_equal.
  rewrite (toString_BigInt _ _ Hraw).
  set (F := padEnd fraction decimals).
  assert (HF : length F = decimals).
  { unfold F, padEnd. rewrite length_app, length_replicate. lia. }
  rewrite <- (trim_trailing_zeros_padEnd fraction decimals). fold F.
  clearbody F. subst decimals. clear Hlen Hraw.
  destruct (trim_leading_zeros integer) as [|c z] eqn:Ez.
  - (* the integer part is zero: the digits are those of the fraction *)
    rewrite trim_leading_zeros_app_nil by assumption.
    destruct F as [|f F']; [reflexivity|].
    rewrite padStart_trim by congruence.
    rewrite Nat.sub_diag. reflexivity.
  - rewrite trim_leading_zeros_app by congruence. rewrite Ez.
    change (or_zero ((c :: z) ++ F)) with ((c :: z) ++ F).
    rewrite padStart_long by (rewrite length_app; lia).
    rewrite take_suffix, drop_suffix. reflexivity.
Qed.

Lemma forallb_digit_padEnd l n :
  forallb is_digit l = true -> forallb is_digit (padEnd l n) = true.
Proof.
  intros H. unfold padEnd. rewrite forallb_app, H. simpl.
  induction (n - length l); simpl; auto.
Qed.

Lemma BigInt_digits l : forallb is_digit l = true -> exists n, BigInt l = Some n.
Proof.
  intros H. destruct (digits_uint l H) as [d Hd].
  unfold BigInt. rewrite Hd. simpl. eauto.
Qed.

Lemma forallb_Forall_digit l :
  forallb is_digit l = true -> Forall (fun c => is_digit c = true) l.
Proof.
  induction l as [|c l IH]; simpl; intros H; constructor;
    apply andb_prop in H as [? ?]; auto.
Qed.

(** An accepted amount is numeric and within the precision. *)
Lemma toBaseUnits_Ok_inv s decimals raw :
  toBaseUnits s decimals = Ok raw ->
  numeric s /\ fraction_digits s <= decimals.
Proof.
  unfold toBaseUnits, numeric, fraction_digits.
  destruct (split_point _) as [integer fraction] eqn:E.
  destruct (forallb is_digit integer) eqn:Hi; [|discriminate].
  destruct (forallb is_digit fraction) eqn:Hf; [|discriminate].
  destruct (bool_decide (integer ++ fraction = [])) eqn:Hn; [discriminate|].
  destruct (length fraction <=? decimals)%nat eqn:Hl; [|discriminate].
  intros _. simpl. split; [|apply Nat.leb_le, Hl].
  exists integer, fraction. split; [|split].
  - apply Forall_app. split; apply forallb_Forall_digit; assumption.
  - apply bool_decide_eq_false in Hn. exact Hn.
  - apply split_point_spec in E. tauto.
Qed.

Lemma toBaseUnits_result s decimals :
  (exists raw, toBaseUnits s decimals = Ok raw) \/
  toBaseUnits s decimals = Throw InvalidAmount.
Proof.
  unfold toBaseUnits. destruct (split_point _) as [integer fraction].
  destruct (_ && _); [|auto]. destruct (BigInt _); eauto.
Qed.

(** C5: an amount with more fractional digits than [decimals] is refused
    with [InvalidAmount], and so is one that is not numeric or that is
    negative; nothing is truncated or rounded. In [transferERC20] and
    [approveERC20], with this conversion for [parseUnits], such an amount,
    measured against the decimals the token reports, ends the call with an
    error before anything is submitted. *)
Theorem toBaseUnits_rejects s decimals :
  decimals < fraction_digits s \/ ~ numeric s \/ negative s ->
  toBaseUnits s decimals = Throw InvalidAmount /\
  forall ext functionName token counterparty key network st,
    Transfer.parseUnits ext = toBaseUnits ->
    (forall client address d,
        Transfer.read_decimals ext client address = Ok d -> d = decimals) ->
    exists e st1,
      Transfer.erc20_call ext functionName token counterparty s key network st
      = (Throw e, st1, []).
Proof.
  intros H.
  assert (Hrej : toBaseUnits s decimals = Throw InvalidAmount).
  { destruct (toBaseUnits_result s decimals) as [[raw Hraw]|]; [|assumption].
    exfalso. apply toBaseUnits_Ok_inv in Hraw as [Hnum Hlen].
    destruct H as [H|[H|[rest ->]]]; [lia|tauto|].
    destruct Hnum as (integer & fraction & Hd & _ & Hs). simpl in Hs.
    assert (Hin : In "-" (integer ++ fraction)).
    { apply in_or_app. destruct integer as [|c integer].
      - destruct Hs as [Hs|Hs]; discriminate.
      - left. destruct Hs as [Hs|Hs]; injection Hs as <- _; left; reflexivity. }
    rewrite Forall_forall in Hd. apply list_elem_of_In, Hd in Hin. discriminate. }
  split; [exact Hrej|].
  intros ext functionName token counterparty key network st Hparse Hdec.
  unfold Transfer.erc20_call.
  destruct (Transfer.resolveAddress ext token network); [|eauto].
  destruct (Transfer.resolveAddress ext counterparty network); [|eauto].
  destruct (Clients.getPublicClient _ network st) as [[client|] st1]; [|eauto].
  destruct (Transfer.read_decimals ext client _) as [d|] eqn:Hd; [|eauto].
  apply Hdec in Hd. subst d.
  destruct (Transfer.read_symbol ext client _); [|eauto].
  rewrite Hparse, Hrej. eauto.
Qed.

Lemma toBaseUnits_rejects_witness :
  toBaseUnits "1.2345" 3 = Throw InvalidAmount /\
  exists e st1,
    Transfer.transferERC20 Scenarios.token "0xtoken" "0xrecipient" "1.2345" "key"
                           "ethereum" Clients.initial
    = (Throw e, st1, []).
Proof.
  destruct (toBaseUnits_rejects "1.2345" 3) as [Hcodec Hcall].
  { left. vm_compute. lia. }
  split; [exact Hcodec|].
  apply Hcall; [reflexivity|]. intros client address d [= <-]. reflexivity.
Defined.

Lemma BigInt_zero_cons l : BigInt ("0" :: l) = BigInt l.
Proof.
  unfold BigInt. simpl.
  destruct (NilEmpty.uint_of_string (String.string_of_list_ascii l)); reflexivity.
Qed.

(** Leading zeros do not change the value read. *)
Lemma BigInt_trim_leading_zeros l rest :
  BigInt (or_zero (trim_leading_zeros l) ++ rest) = BigInt (l ++ rest).
Proof.
  induction l as [|c l IH]; simpl.
  - apply BigInt_zero_cons.
  - destruct (is_zero c) eqn:Hc; [|reflexivity].
    apply Ascii.eqb_eq in Hc. subst c. rewrite IH. symmetry. apply BigInt_zero_cons.
Qed.

Lemma trim_leading_zeros_split l :
  exists k, l = replicate k "0" ++ trim_leading_zeros l.
Proof.
  induction l as [|c l [k IH]]; simpl.
  - exists 0. reflexivity.
  - destruct (is_zero c) eqn:Hc.
    + apply Ascii.eqb_eq in Hc. subst c. exists (S k). simpl. f_equal. exact IH.
    + exists 0. reflexivity.
Qed.

Lemma trim_trailing_zeros_split l :
  exists k, l = trim_trailing_zeros l ++ replicate k "0".
Proof.
  unfold trim_trailing_zeros.
  destruct (trim_leading_zeros_split (reverse l)) as [k Hk]. exists k.
  rewrite <- (reverse_involutive l) at 1. rewrite Hk at 1.
  rewrite reverse_app, reverse_replicate. reflexivity.
Qed.

(** Padding the trimmed fraction gives the padded fraction back. *)
Lemma padEnd_trim_trailing_zeros l n :
  length l <= n -> padEnd (trim_trailing_zeros l) n = padEnd l n.
Proof.
  intros Hlen. destruct (trim_trailing_zeros_split l) as [k Hk].
  remember (trim_trailing_zeros l) as trimmed eqn:Ht. clear Ht. subst l.
  rewrite length_app, length_replicate in Hlen.
  unfold padEnd.
  rewrite <- app_assoc, <- replicate_add, length_app, length_replicate.
  do 2 f_equal. lia.
Qed.

Lemma trim_leading_zeros_head l c rest :
  trim_leading_zeros l = c :: rest -> is_zero c = false.
Proof.
  induction l as [|c' l IH]; simpl; [discriminate|].
  destruct (is_zero c') eqn:Hc; [exact IH|]. intros [= <- _]. exact Hc.
Qed.

Lemma trim_trailing_zeros_last l c :
  last (trim_trailing_zeros l) = Some c -> is_zero c = false.
Proof.
  unfold trim_trailing_zeros. rewrite last_reverse.
  destruct (trim_leading_zeros (reverse l)) as [|c' rest] eqn:E; [discriminate|].
  intros [= <-]. eapply trim_leading_zeros_head, E.
Qed.

Lemma forallb_digit_trim_leading_zeros l :
  forallb is_digit l = true -> forallb is_digit (trim_leading_zeros l) = true.
Proof.
  induction l as [|c l IH]; simpl; [auto|].
  intros H. destruct (is_zero c); [|exact H].
  apply andb_prop in H as [_ H]. auto.
Qed.

Lemma forallb_digit_reverse l :
  forallb is_digit (reverse l) = forallb is_digit l.
Proof.
  induction l as [|c l IH]; [reflexivity|].
  rewrite reverse_cons, forallb_app, IH. simpl. rewrite andb_true_r. apply andb_comm.
Qed.

Lemma forallb_digit_trim_trailing_zeros l :
  forallb is_digit l = true -> forallb is_digit (trim_trailing_zeros l) = true.
Proof.
  intros H. unfold trim_trailing_zeros. rewrite forallb_digit_reverse.
  apply forallb_digit_trim_leading_zeros. rewrite forallb_digit_reverse. exact H.
Qed.

Lemma digit_not_point c : is_digit c = true -> is_point c = false.
Proof.
  destruct c as [[] [] [] [] [] [] [] []]; simpl; intros H;
    try discriminate; reflexivity.
Qed.

(** Digits, then a point or the end: the string splits there. *)
Lemma split_point_digits integer rest :
  forallb is_digit integer = true ->
  split_point (integer ++ match rest with [] => [] | _ => "." :: rest end)
  = (integer, rest).
Proof.
  induction integer as [|c integer IH]; simpl.
  - intros _. destruct rest; reflexivity.
  - intros H. apply andb_prop in H as [Hc Hl].
    rewrite (digit_not_point c Hc), (IH Hl). reflexivity.
Qed.

Lemma forallb_digit_or_zero l :
  forallb is_digit l = true -> forallb is_digit (or_zero l) = true.
Proof. destruct l; auto. Qed.

(** How [render] splits again, when both parts are digits. *)
Lemma split_point_render integer fraction :
  forallb is_digit integer = true ->
  split_point (render integer fraction) = (or_zero integer, fraction).
Proof.
  intros H. unfold render.
  apply (split_point_digits (or_zero integer) fraction), forallb_digit_or_zero, H.
Qed.

Lemma last_digits_point l c :
  forallb is_digit l = true -> last l = Some c -> is_point c = false.
Proof.
  induction l as [|c' l IH]; [discriminate|].
  simpl forallb. intros H. apply andb_prop in H as [Hc Hl].
  destruct l as [|c'' l]; [intros [= <-]; apply digit_not_point, Hc|].
  intros Hlast. apply IH; assumption.
Qed.

(** What comes out of [render] on trimmed digits is a canonical string. *)
Lemma render_canonical integer fraction :
  forallb is_digit integer = true ->
  forallb is_digit fraction = true ->
  is_canonical (String.string_of_list_ascii
                  (render (trim_leading_zeros integer) (trim_trailing_zeros fraction)))
  = true.
Proof.
  intros Hi Hf. unfold is_canonical. rewrite list_string_list.
  pose proof (forallb_digit_trim_leading_zeros _ Hi) as HI.
  pose proof (forallb_digit_trim_trailing_zeros _ Hf) as HF.
  rewrite (split_point_render _ _ HI).
  rewrite (forallb_digit_or_zero _ HI), HF. simpl.
  assert (Hint : match or_zero (trim_leading_zeros integer) with
                 | [] => false
                 | [_] => true
                 | c :: _ :: _ => negb (is_zero c)
                 end = true).
  { destruct (trim_leading_zeros integer) as [|c [|c' rest]] eqn:E; simpl; auto.
    rewrite (trim_leading_zeros_head _ _ _ E). reflexivity. }
  rewrite Hint. simpl. unfold render.
  destruct (trim_trailing_zeros fraction) as [|f F] eqn:EF.
  - rewrite app_nil_r.
    destruct (last (or_zero (trim_leading_zeros integer))) as [c|] eqn:El.
    + rewrite (last_digits_point _ c (forallb_digit_or_zero _ HI) El). reflexivity.
    + apply last_None in El. destruct (trim_leading_zeros integer); discriminate.
  - rewrite last_app. change ("." :: f :: F) with (["."] ++ f :: F). rewrite last_app.
    destruct (last (f :: F)) as [c|] eqn:El.
    + rewrite <- EF in El. rewrite (trim_trailing_zeros_last _ _ El). reflexivity.
    + apply last_None in El. discriminate.
Qed.

(** Reading the canonical form gives the base units of the string. *)
Lemma render_toBaseUnits integer fraction decimals raw :
  forallb is_digit integer = true ->
  forallb is_digit fraction = true ->
  length fraction <= decimals ->
  BigInt (integer ++ padEnd fraction decimals) = Some raw ->
  toBaseUnits (String.string_of_list_ascii
                 (render (trim_leading_zeros integer) (trim_trailing_zeros fraction)))
              decimals
  = Ok raw.
Proof.
  intros Hi Hf Hlen Hraw. unfold toBaseUnits. rewrite list_string_list.
  pose proof (forallb_digit_trim_leading_zeros _ Hi) as HI.
  pose proof (forallb_digit_trim_trailing_zeros _ Hf) as HF.
  rewrite (split_point_render _ _ HI).
  rewrite (forallb_digit_or_zero _ HI), HF. simpl.
  assert (Hne : bool_decide (or_zero (trim_leading_zeros integer)
                             ++ trim_trailing_zeros fraction = []) = false).
  { apply bool_decide_eq_false. destruct (trim_leading_zeros integer); discriminate. }
  rewrite Hne. simpl.
  assert (Hle : (length (trim_trailing_zeros fraction) <=? decimals)%nat = true).
  { apply Nat.leb_le. destruct (trim_trailing_zeros_split fraction) as [k Hk].
    rewrite Hk, length_app in Hlen. lia. }
  rewrite Hle, (padEnd_trim_trailing_zeros _ _ Hlen), BigInt_trim_leading_zeros, Hraw.
  reflexivity.
Qed.

(** Whatever string the conversion accepts, formatting its result gives
    the canonical form of that string. *)
Lemma toBaseUnits_format h decimals raw :
  toBaseUnits h decimals = Ok raw -> toHumanUnits raw decimals = canonicalForm h.
Proof.
  unfold toBaseUnits, canonicalForm.
  destruct (split_point _) as [integer fraction].
  destruct (forallb is_digit integer && forallb is_digit fraction
            && negb (bool_decide (integer ++ fraction = []))) ; [|discriminate].
  destruct (length fraction <=? decimals)%nat eqn:Hl; [|discriminate]. simpl.
  destruct (BigInt (integer ++ padEnd fraction decimals)) as [n|] eqn:Hraw; [|discriminate].
  intros [= <-]. apply Nat.leb_le in Hl. apply roundtrip_digits; assumption.
Qed.

Lemma trim_leading_zeros_fixed l :
  match l with
  | [] => False
  | [_] => True
  | c :: _ => is_zero c = false
  end ->
  forallb is_digit l = true ->
  or_zero (trim_leading_zeros l) = l.
Proof.
  destruct l as [|c [|c' rest]]; simpl; [tauto| |].
  - intros _ _. destruct (is_zero c) eqn:Hc; [|reflexivity].
    apply Ascii.eqb_eq in Hc. subst c. reflexivity.
  - intros -> _. reflexivity.
Qed.

Lemma trim_trailing_zeros_fixed l :
  match last l with
  | Some c => is_zero c = false
  | None => True
  end ->
  trim_trailing_zeros l = l.
Proof.
  unfold trim_trailing_zeros. intros H.
  assert (Hhead : match head (reverse l) with
                  | Some c => is_zero c = false
                  | None => True
                  end).
  { rewrite <- last_reverse, reverse_involutive. exact H. }
  destruct (reverse l) as [|c rest] eqn:E; simpl in *.
  - rewrite <- (reverse_involutive l), E. reflexivity.
  - rewrite Hhead, <- E. apply reverse_involutive.
Qed.

(** A canonical string is its own canonical form. *)
Lemma canonicalForm_fixed h : is_canonical h = true -> canonicalForm h = h.
Proof.
  unfold is_canonical, canonicalForm.
  destruct (split_point (String.list_ascii_of_string h)) as [integer fraction] eqn:E.
  apply split_point_spec in E as (Hl & _ & Hnil).
  intros H. apply andb_prop in H as [H Hlast]. apply andb_prop in H as [H Hint].
  apply andb_prop in H as [Hi Hf].
  transitivity (String.string_of_list_ascii (String.list_ascii_of_string h));
    [|apply String.string_of_list_ascii_of_string].
  f_equal.
  assert (HI : or_zero (trim_leading_zeros integer) = integer).
  { apply trim_leading_zeros_fixed; [|exact Hi].
    destruct integer as [|c [|c' rest]]; [discriminate|exact I|].
    apply negb_true_iff, Hint. }
  unfold render. rewrite HI.
  destruct fraction as [|f F].
  - change (trim_trailing_zeros []) with (@nil ascii). rewrite app_nil_r.
    destruct Hl as [Hl|Hl]; [congruence|].
    rewrite Hl, last_app in Hlast. discriminate.
  - destruct Hl as [Hl|Hl]; [specialize (Hnil Hl); discriminate|].
    assert (HF : trim_trailing_zeros (f :: F) = f :: F).
    { apply trim_trailing_zeros_fixed.
      rewrite Hl, last_app in Hlast.
      change ("." :: f :: F) with (["."] ++ f :: F) in Hlast.
      rewrite last_app in Hlast.
      destruct (last (f :: F)); [apply negb_true_iff, Hlast|exact I]. }
    rewrite HF, Hl. reflexivity.
Qed.

(** C2: for a decimal string with at most [decimals] fractional digits,
    the conversion to base units succeeds and formatting its result gives
    the canonical form of the string. What the formatter returns is a
    canonical string, in the sense of [is_canonical], reads back as the
    same base units, and is the only canonical string that does: no digit
    of the value is lost or altered on the way. *)
Theorem codec_round_trip s decimals :
  is_decimal s = true ->
  fraction_digits s <= decimals ->
  exists raw,
    toBaseUnits s decimals = Ok raw /\
    toHumanUnits raw decimals = canonicalForm s /\
    is_canonical (toHumanUnits raw decimals) = true /\
    toBaseUnits (toHumanUnits raw decimals) decimals = Ok raw /\
    (forall h, is_canonical h = true -> toBaseUnits h decimals = Ok raw ->
               h = toHumanUnits raw decimals).
Proof.
  unfold is_decimal, fraction_digits.
  assert (Hform : canonicalForm s =
                  let '(integer, fraction) :=
                    split_point (String.list_ascii_of_string s) in
                  String.string_of_list_ascii
                    (render (trim_leading_zeros integer) (trim_trailing_zeros fraction)))
    by reflexivity.
  assert (Hbase : toBaseUnits s decimals =
                  let '(integer, fraction) :=
                    split_point (String.list_ascii_of_string s) in
                  if forallb is_digit integer && forallb is_digit fraction
                     && negb (bool_decide (integer ++ fraction = []))
                     && (length fraction <=? decimals)%nat
                  then match BigInt (integer ++ padEnd fraction decimals) with
                       | Some raw => Ok raw
                       | None => Throw InvalidAmount
                       end
                  else Throw InvalidAmount)
    by reflexivity.
  rewrite Hform, Hbase. clear Hform Hbase.
  destruct (split_point _) as [integer fraction]. simpl.
  intros Hdec Hlen. rewrite Hdec. apply Nat.leb_le in Hlen as Hleb. rewrite Hleb. simpl.
  apply andb_prop in Hdec as [Hdec _]. apply andb_prop in Hdec as [Hi Hf].
  destruct (BigInt_digits (integer ++ padEnd fraction decimals)) as [raw Hraw].
  { rewrite forallb_app, Hi. apply forallb_digit_padEnd, Hf. }
  rewrite Hraw. exists raw. split; [reflexivity|].
  rewrite (roundtrip_digits integer fraction decimals raw Hlen Hraw).
  split; [reflexivity|]. split; [|split].
  - apply render_canonical; assumption.
  - apply render_toBaseUnits; assumption.
  - intros h Hcanon Hh. rewrite <- (canonicalForm_fixed h Hcanon).
    rewrite <- (toBaseUnits_format h decimals raw Hh).
    apply roundtrip_digits; assumption.
Qed.

Lemma codec_round_trip_witness :
  toBaseUnits "001.50" 6 = Ok 1500000%N /\
  toHumanUnits 1500000 6 = "1.5"%string /\
  canonicalForm "001.50" = "1.5"%string /\
  is_canonical "1.5" = true /\
  toBaseUnits "1.5" 6 = Ok 1500000%N.
Proof.
  destruct (codec_round_trip "001.50" 6) as (raw & Hraw & Hform & Hshape & Hback & _);
    [reflexivity | vm_compute; lia |].
  assert (Hvalue : raw = 1500000%N).
  { assert (H : toBaseUnits "001.50" 6 = Ok 1500000%N) by (vm_compute; reflexivity).
    rewrite H in Hraw. injection Hraw as <-. reflexivity. }
  subst raw.
  assert (Hcanon : canonicalForm "001.50" = "1.5"%string) by (vm_compute; reflexivity).
  rewrite Hcanon in Hform. rewrite Hform in Hshape, Hback.
  repeat split; assumption.
Defined.

End CodecFacts.

(** ** The bridge tool *)

Module BridgeFacts.

Import Clients Bridge.

Lemma resolve_settled v p : p <> Pending -> resolve v p = p.
Proof. destruct p; simpl; congruence. Qed.

Lemma reject_settled v p : p <> Pending -> reject v p = p.
Proof. destruct p; simpl; congruence. Qed.

(** Once the promise is settled no signal changes it. *)
Lemma deliver_settled s p : p <> Pending -> deliver s p = p.
Proof.
  intros Hp. destruct s as [ev|e]; simpl.
  - unfold onProgress.
    destruct p; [congruence| |]; repeat break_match; reflexivity.
  - unfold onExecuteError. apply reject_settled, Hp.
Qed.

Lemma run_settled signals p : p <> Pending -> run signals p = p.
Proof.
  revert p. induction signals as [|s signals IH]; intros p Hp; [reflexivity|].
  unfold run in *. simpl. rewrite deliver_settled by assumption. apply IH, Hp.
Qed.

Lemma run_app pre post p : run (pre ++ post) p = run post (run pre p).
Proof. apply fold_left_app. Qed.

Lemma onProgress_deposit_success ev hash :
  step ev = "deposit" -> status ev = "txSuccess" ->
  txReceipt_transactionHash ev = Some hash -> Js.truthy_string hash = true ->
  onProgress ev Pending =
  Fulfilled (mkResult ("Successfully initiated ETH bridge. Deposit Tx: " +:+ hash)
                      false (Some hash)).
Proof.
  intros Hstep Hstatus Hhash Htruthy. unfold onProgress.
  rewrite Hstep, Hstatus, Hhash. simpl. rewrite Htruthy. reflexivity.
Qed.

(** The handler reaches [executeQuote] at most once, and then its promise
    is the one the signals act on. *)
Lemma bridge_executes w o d a walletClient deposit :
  In (ExecuteQuote walletClient deposit) (bridge_native_eth_across w o d a).1 ->
  (bridge_native_eth_across w o d a).2 = run (executeQuote w walletClient deposit) Pending.
Proof.
  unfold bridge_native_eth_across.
  repeat break_match; simpl; intros Hin;
    repeat (destruct Hin as [Hin|Hin]; try discriminate); try contradiction.
  all: injection Hin as <- <-; reflexivity.
Qed.

(** A [fill] event after the deposit has resolved the call changes
    nothing. *)
Example fill_after_deposit :
  run [Progress Scenarios.deposit_success; Progress Scenarios.fill_success] Pending =
  run [Progress Scenarios.deposit_success] Pending.
Proof. reflexivity. Qed.

(** A rejected quote leaves the handler as a fault, whatever the world. *)
Lemma bridge_quote_rejected w o d a r inputAmount e :
  In (GetQuote r inputAmount) (bridge_native_eth_across w o d a).1 ->
  getQuote w r inputAmount = Throw e ->
  bridge_native_eth_across w o d a = ([GetQuote r inputAmount], Rejected (Fault e)).
Proof.
  unfold bridge_native_eth_across.
  repeat break_match; simpl; intros Hin Hq;
    repeat (destruct Hin as [Hin|Hin]; try discriminate); try contradiction;
    injection Hin as <- <-; congruence.
Qed.

(** C1, as the code has it: when a [deposit] event with status
    [txSuccess] and a transaction hash reaches the callback while the call
    is still pending, the call resolves with that hash, whatever follows
    and whether or not a [fill] event ever arrives; on a resolved call
    every later signal, a [fill] event included, changes nothing. *)
Theorem deposit_success_resolves w o d a walletClient deposit pre ev post hash :
  In (ExecuteQuote walletClient deposit) (bridge_native_eth_across w o d a).1 ->
  executeQuote w walletClient deposit = pre ++ Progress ev :: post ->
  run pre Pending = Pending ->
  step ev = "deposit" -> status ev = "txSuccess" ->
  txReceipt_transactionHash ev = Some hash -> Js.truthy_string hash = true ->
  (bridge_native_eth_across w o d a).2 =
    Fulfilled (mkResult ("Successfully initiated ETH bridge. Deposit Tx: " +:+ hash)
                        false (Some hash)) /\
  (forall s r, deliver s (Fulfilled r) = Fulfilled r).
Proof.
  intros Hin Hsignals Hpre Hstep Hstatus Hhash Htruthy. split.
  - rewrite (bridge_executes _ _ _ _ _ _ Hin), Hsignals, run_app, Hpre.
    unfold run at 1. simpl fold_left.
    rewrite (onProgress_deposit_success ev hash) by assumption.
    apply run_settled. discriminate.
  - intros s r. apply deliver_settled. discriminate.
Qed.

Lemma deposit_success_resolves_witness :
  (bridge_native_eth_across
     (Scenarios.bridge [Progress Scenarios.deposit_success])
     "ethereum" "optimism" "0.1").2 =
    Fulfilled (mkResult ("Successfully initiated ETH bridge. Deposit Tx: "
                         +:+ Scenarios.deposit_hash)
                        false (Some Scenarios.deposit_hash)) /\
  (forall s r, deliver s (Fulfilled r) = Fulfilled r).
Proof.
  eapply (deposit_success_resolves _ _ _ _ _ _ [] Scenarios.deposit_success []).
  - vm_compute. right; left. reflexivity.
  - reflexivity.
  - reflexivity.
  - reflexivity.
  - reflexivity.
  - reflexivity.
  - reflexivity.
Defined.

(** C1 as stated fails: a promise settles once, so a [deposit] success
    that arrives after an error event finds the call already rejected. *)
Lemma deposit_after_error_counterexample :
  let signals := [Progress Scenarios.approve_error; Progress Scenarios.deposit_success] in
  In (Progress Scenarios.deposit_success) signals /\
  (bridge_native_eth_across (Scenarios.bridge signals) "ethereum" "optimism" "0.1").2 =
    Rejected (RejectedResult
                (failure "Bridging failed at step approve. Reason: Unknown error")).
Proof. split; [right; left; reflexivity | vm_compute; reflexivity]. Qed.

(** C3 at the failing input: the provider refuses to quote. [getQuote] is
    awaited outside any [try], so the promise of the handler is rejected
    with the provider's own error instead of being resolved with an
    [isError] result; [executeQuote] is not called. *)
Theorem quote_failure_escapes :
  bridge_native_eth_across Scenarios.no_route "ethereum" "optimism" "0.1" =
  ([GetQuote (mkRoute 1 10 "0xC02aaA39b223FE8D0A0e5C4F27eAD9083C756Cc2"
                      "0x4200000000000000000000000000000000000006" true)
             100000000000000000],
   Rejected (Fault (Js.Error "No route"))).
Proof. vm_compute. reflexivity. Qed.

End BridgeFacts.

(** ** The private key prefix *)

Module KeyFacts.

Lemma startsWith_0x_prefixed k : Js.startsWith ("0x" +:+ k) "0x" = true.
Proof. unfold Js.startsWith. simpl. destruct k; reflexivity. Qed.

Lemma truthy_nonempty k : k <> "" -> Js.truthy_string k = true.
Proof. destruct k; [congruence|reflexivity]. Qed.

Lemma formatKey_prefixed k :
  Js.startsWith k "0x" = false ->
  Transfer.formatKey k = Transfer.formatKey ("0x" +:+ k).
Proof.
  intros H. unfold Transfer.formatKey. rewrite H, startsWith_0x_prefixed. reflexivity.
Qed.

Lemma ensure0x_unprefixed k :
  Js.startsWith k "0x" = false -> Config.ensure0x k = "0x" +:+ k.
Proof. intros H. unfold Config.ensure0x. rewrite H. reflexivity. Qed.

Lemma ensure0x_prefixed k : Config.ensure0x ("0x" +:+ k) = "0x" +:+ k.
Proof. unfold Config.ensure0x. rewrite startsWith_0x_prefixed. reflexivity. Qed.

Lemma formatKey_unprefixed k :
  Js.startsWith k "0x" = false -> Transfer.formatKey k = "0x" +:+ k.
Proof. intros H. unfold Transfer.formatKey. rewrite H. reflexivity. Qed.

(** The wallet client depends on the signer through the one key it is
    built from. *)
Lemma getWalletClient_signer c signer1 signer2 key network :
  signer1 key = signer2 key ->
  Clients.getWalletClient (Keys.with_signer signer1 c) key network =
  Clients.getWalletClient (Keys.with_signer signer2 c) key network.
Proof.
  intros H. unfold Clients.getWalletClient, Keys.with_signer. simpl.
  rewrite H. reflexivity.
Qed.

Lemma getPublicClient_signer c signer1 signer2 network st :
  Clients.getPublicClient (Keys.with_signer signer1 c) network st =
  Clients.getPublicClient (Keys.with_signer signer2 c) network st.
Proof. reflexivity. Qed.

(** C10, as the code has it: [transferETH], [transferERC20] and
    [approveERC20] prepend [0x] to a key that lacks it before any use. For
    a key [k] without the prefix, the only key the signer is ever asked
    about is [0x] followed by [k]: what these functions do on [k] is what
    they do on [0x] followed by [k], also when the signer is replaced by
    one that answers differently for every other key, [k] itself included.
    The same holds of the bridge handler and the swap handler for the key
    they read from [WALLET_PRIVATE_KEY], when that key is not empty, and
    [getPrivateKey] then returns [0x] followed by [k] for both. *)
Theorem key_prefix_normalised k :
  Js.startsWith k "0x" = false ->
  forall c signer1 signer2,
    signer1 ("0x" +:+ k) = signer2 ("0x" +:+ k) ->
    let c1 := Keys.with_signer signer1 c in
    let c2 := Keys.with_signer signer2 c in
    (forall resolveAddress parseEther parseUnits decimals symbol submit to amount network,
        Transfer.transferETH
          (Transfer.mkExternals c1 resolveAddress parseEther parseUnits decimals symbol
                                submit)
          k to amount network =
        Transfer.transferETH
          (Transfer.mkExternals c2 resolveAddress parseEther parseUnits decimals symbol
                                submit)
          ("0x" +:+ k) to amount network) /\
    (forall resolveAddress parseEther parseUnits decimals symbol submit
            functionName token counterparty amount network st,
        Transfer.erc20_call
          (Transfer.mkExternals c1 resolveAddress parseEther parseUnits decimals symbol
                                submit)
          functionName token counterparty amount k network st =
        Transfer.erc20_call
          (Transfer.mkExternals c2 resolveAddress parseEther parseUnits decimals symbol
                                submit)
          functionName token counterparty amount ("0x" +:+ k) network st) /\
    (k <> "" ->
     Config.getPrivateKey (Some k) = Ok ("0x" +:+ k) /\
     Config.getPrivateKey (Some ("0x" +:+ k)) = Ok ("0x" +:+ k) /\
     (forall parseEther getQuote executeQuote o d a,
         Bridge.bridge_native_eth_across
           (Bridge.mkWorld (Some k) c1 parseEther getQuote executeQuote) o d a =
         Bridge.bridge_native_eth_across
           (Bridge.mkWorld (Some ("0x" +:+ k)) c2 parseEther getQuote executeQuote)
           o d a) /\
     (forall apiKey get send big text i,
         Swap.handler (Swap.mkWorld apiKey (Some k) c1 get send big text) i =
         Swap.handler (Swap.mkWorld apiKey (Some ("0x" +:+ k)) c2 get send big text) i)).
Proof.
  intros H c signer1 signer2 Hs c1 c2.
  pose proof (fun network =>
                getWalletClient_signer c signer1 signer2 ("0x" +:+ k) network Hs) as Hw.
  fold c1 c2 in Hw.
  split; [|split].
  - intros. unfold Transfer.transferETH. cbn [Transfer.resolveAddress Transfer.clients
      Transfer.parseEther Transfer.submit].
    rewrite (formatKey_unprefixed k H), <- (formatKey_prefixed k H),
      (formatKey_unprefixed k H), Hw.
    reflexivity.
  - intros. unfold Transfer.erc20_call. cbn [Transfer.resolveAddress Transfer.clients
      Transfer.parseUnits Transfer.read_decimals Transfer.read_symbol Transfer.submit].
    rewrite (formatKey_unprefixed k H), <- (formatKey_prefixed k H),
      (formatKey_unprefixed k H), Hw.
    change (Clients.getPublicClient c1 network st)
      with (Clients.getPublicClient c2 network st).
    reflexivity.
  - intros Hk. pose proof (truthy_nonempty k Hk) as Ht.
    assert (Ht' : Js.truthy_string ("0x" +:+ k) = true) by reflexivity.
    split; [|split; [|split]].
    + unfold Config.getPrivateKey. rewrite Ht, (ensure0x_unprefixed k H). reflexivity.
    + unfold Config.getPrivateKey. rewrite Ht', ensure0x_prefixed. reflexivity.
    + intros. unfold Bridge.bridge_native_eth_across.
      cbn [Bridge.WALLET_PRIVATE_KEY Bridge.clients Bridge.parseEther Bridge.getQuote
           Bridge.executeQuote].
      rewrite Ht, Ht', H, startsWith_0x_prefixed. simpl negb. cbv iota.
      change (Clients.getChain c1) with (Clients.getChain c2).
      repeat break_match; try reflexivity; try congruence;
        rewrite Hw in *; congruence.
    + intros. unfold Swap.handler.
      cbn [Swap.ONEINCH_API_KEY Swap.WALLET_PRIVATE_KEY Swap.clients].
      rewrite Ht, Ht', H, startsWith_0x_prefixed. simpl negb. cbv iota.
      change (Clients.getChain c1) with (Clients.getChain c2).
      destruct (negb (Js.truthy_opt apiKey)); [reflexivity|].
      destruct (Clients.getChain c2 (Clients.NetName (Swap.network i)))
        as [[chain|]|e]; try reflexivity.
      rewrite Hw. reflexivity.
Qed.

Lemma key_prefix_normalised_witness :
  let c1 := Keys.with_signer (Keys.only "0xab" Registry.externals) Registry.externals in
  let c2 := Keys.with_signer (Clients.privateKeyToAccount Registry.externals)
                             Registry.externals in
  (forall resolveAddress parseEther parseUnits decimals symbol submit to amount network,
      Transfer.transferETH
        (Transfer.mkExternals c1 resolveAddress parseEther parseUnits decimals symbol
                              submit)
        "ab" to amount network =
      Transfer.transferETH
        (Transfer.mkExternals c2 resolveAddress parseEther parseUnits decimals symbol
                              submit)
        ("0x" +:+ "ab") to amount network) /\
  (forall resolveAddress parseEther parseUnits decimals symbol submit
          functionName token counterparty amount network st,
      Transfer.erc20_call
        (Transfer.mkExternals c1 resolveAddress parseEther parseUnits decimals symbol
                              submit)
        functionName token counterparty amount "ab" network st =
      Transfer.erc20_call
        (Transfer.mkExternals c2 resolveAddress parseEther parseUnits decimals symbol
                              submit)
        functionName token counterparty amount ("0x" +:+ "ab") network st) /\
  ("ab" <> "" ->
   Config.getPrivateKey (Some "ab") = Ok ("0x" +:+ "ab") /\
   Config.getPrivateKey (Some ("0x" +:+ "ab")) = Ok ("0x" +:+ "ab") /\
   (forall parseEther getQuote executeQuote o d a,
       Bridge.bridge_native_eth_across
         (Bridge.mkWorld (Some "ab") c1 parseEther getQuote executeQuote) o d a =
       Bridge.bridge_native_eth_across
         (Bridge.mkWorld (Some ("0x" +:+ "ab")) c2 parseEther getQuote executeQuote)
         o d a) /\
   (forall apiKey get send big text i,
       Swap.handler (Swap.mkWorld apiKey (Some "ab") c1 get send big text) i =
       Swap.handler (Swap.mkWorld apiKey (Some ("0x" +:+ "ab")) c2 get send big text) i)).
Proof.
  apply (key_prefix_normalised "ab"
           eq_refl Registry.externals
           (Keys.only "0xab" Registry.externals)
           (Clients.privateKeyToAccount Registry.externals)).
  reflexivity.
Defined.

(** C10 as stated fails for the empty key: an empty [WALLET_PRIVATE_KEY]
    counts as unset, while [0x] alone is a key like any other, so
    [getPrivateKey], the bridge handler and the swap handler do on the
    empty key something else than on [0x] followed by it. *)
Lemma empty_key_counterexample :
  Js.startsWith "" "0x" = false /\
  Config.getPrivateKey (Some "") =
    Throw (Js.Error "WALLET_PRIVATE_KEY environment variable is not set. Please add it to your .local.env file.") /\
  Config.getPrivateKey (Some ("0x" +:+ "")) = Ok "0x" /\
  Bridge.bridge_native_eth_across (Keys.bridge_with_key "") "ethereum" "optimism" "0.1" <>
  Bridge.bridge_native_eth_across (Keys.bridge_with_key ("0x" +:+ ""))
                                  "ethereum" "optimism" "0.1" /\
  Swap.handler (Keys.swap_with_key "") Keys.swap_input <>
  Swap.handler (Keys.swap_with_key ("0x" +:+ "")) Keys.swap_input.
Proof.
  split; [reflexivity|]. split; [reflexivity|]. split; [reflexivity|].
  split; vm_compute; discriminate.
Qed.

End KeyFacts.

(** ** The swap tool *)

Module SwapFacts.

Import Clients Swap.

(** The submission step sends at most one transaction and nothing else. *)
Lemma submit_swap_effects w walletClient data :
  (submit_swap w walletClient data).1 = [] \/
  exists request, (submit_swap w walletClient data).1 = [SendTransaction request].
Proof.
  unfold submit_swap. repeat break_match; simpl; eauto.
Qed.


(** The handler either stops before any effect or runs the pipeline. *)
Lemma handler_shape w i :
  (exists r, handler w i = ([], r)) \/
  (exists chainId walletClient address,
      handler w i = swap_pipeline w i chainId walletClient address).
Proof.
  unfold handler. repeat break_match; eauto.
Qed.

(** The pipeline stops at the spender lookup, or at the swap request, or
    goes on to the submission step with the data it received. *)
Lemma pipeline_shape w i chainId walletClient address :
  (exists r, swap_pipeline w i chainId walletClient address =
             ([HttpGet (spender_url chainId) None], r)) \/
  (exists r e, axios_get w (swap_url chainId) (Some (params_of i address)) = Throw e /\
               swap_pipeline w i chainId walletClient address =
               (prelude i chainId address, r)) \/
  (exists data, axios_get w (swap_url chainId) (Some (params_of i address)) = Ok data /\
                swap_pipeline w i chainId walletClient address =
                (prelude i chainId address ++ (submit_swap w walletClient data).1,
                 (submit_swap w walletClient data).2)).
Proof.
  unfold swap_pipeline, prelude, params_of.
  destruct (match axios_get w (spender_url chainId) None with
            | Ok d => prop d "address" | Throw e => Throw e end) as [spender|e];
    [|left; eauto].
  right. destruct (axios_get w (swap_url chainId) _) as [data|e] eqn:Hget.
  - right. exists data. split; [reflexivity|].
    destruct (submit_swap w walletClient data). reflexivity.
  - left. eauto.
Qed.



(** With the configuration in place, the handler is the pipeline. *)
Lemma handler_pipeline w i key chain walletClient account :
  Js.truthy_opt (ONEINCH_API_KEY w) = true ->
  WALLET_PRIVATE_KEY w = Some key -> key <> "" ->
  getChain (clients w) (NetName (network i)) = Ok (Some chain) ->
  getWalletClient (clients w) (Config.ensure0x key) (NetId (chain_id chain))
    = Ok walletClient ->
  wc_account walletClient = Some account ->
  handler w i =
  swap_pipeline w i (chain_id chain) walletClient (account_address account).
Proof.
  intros Hapi Hkey Hne Hchain Hwallet Haccount. unfold handler.
  rewrite Hapi, Hkey. simpl.
  assert (Ht : Js.truthy_string key = true) by (destruct key; [congruence|reflexivity]).
  rewrite Ht. simpl.
  change (if Js.startsWith key "0x" then key else "0x" +:+ key) with (Config.ensure0x key).
  rewrite Hchain, Hwallet, Haccount. reflexivity.
Qed.

(** What the pipeline does, by the outcome of the spender lookup. *)
Lemma pipeline_effects w i chainId walletClient address :
  match spender_lookup w (spender_url chainId) with
  | Throw _ =>
      (swap_pipeline w i chainId walletClient address).1 =
      [HttpGet (spender_url chainId) None]
  | Ok _ =>
      exists rest,
        (swap_pipeline w i chainId walletClient address).1 =
        prelude i chainId address ++ rest /\
        (rest = [] \/ exists request, rest = [SendTransaction request])
  end.
Proof.
  unfold swap_pipeline, spender_lookup, prelude, params_of.
  destruct (match axios_get w (spender_url chainId) None with
            | Ok d => prop d "address" | Throw e => Throw e end) as [spender|e];
    [|reflexivity].
  destruct (axios_get w (swap_url chainId) _) as [data|e].
  - exists (submit_swap w walletClient data).1.
    split; [destruct (submit_swap w walletClient data); reflexivity|].
    apply submit_swap_effects.
  - exists []. split; [reflexivity|auto].
Qed.

(** C9, as the code has it: a call that makes the spender lookup and
    gets an address waits exactly once, for 1100 ms, after the lookup and
    before the swap request, which it then makes; a call whose lookup
    fails stops there, and a call that makes no lookup does nothing at
    all: such calls neither wait nor ask for swap data. No call waits
    twice. The lookup is the first thing a call does once the arguments
    are accepted, both keys are set, the network is known and the wallet
    has an account. *)
Theorem swap_waits_once w a :
  let effects := (swap_tokens_1inch w a).1 in
  (forall url,
      In (HttpGet url None) effects ->
      match spender_lookup w url with
      | Ok _ =>
          exists url' params rest,
            effects =
            HttpGet url None :: Delay 1100 :: HttpGet url' (Some params) :: rest /\
            (rest = [] \/ exists request, rest = [SendTransaction request]) /\
            waits effects = [1100%Z]
      | Throw _ => effects = [HttpGet url None] /\ waits effects = []
      end) /\
  ((forall url, ~ In (HttpGet url None) effects) -> effects = []) /\
  (forall i key chain walletClient account,
      schema a = Some i ->
      Js.truthy_opt (ONEINCH_API_KEY w) = true ->
      WALLET_PRIVATE_KEY w = Some key -> key <> "" ->
      getChain (clients w) (NetName (network i)) = Ok (Some chain) ->
      getWalletClient (clients w) (Config.ensure0x key) (NetId (chain_id chain))
        = Ok walletClient ->
      wc_account walletClient = Some account ->
      hd_error effects = Some (HttpGet (spender_url (chain_id chain)) None)).
Proof.
  unfold swap_tokens_1inch. split; [|split].
  - intros url Hin. destruct (schema a) as [i|]; [|destruct Hin].
    destruct (handler_shape w i) as [[r Hh]|(chainId & walletClient & address & Hh)];
      rewrite Hh in *; [destruct Hin|].
    pose proof (pipeline_effects w i chainId walletClient address) as Hp.
    assert (Hurl : url = spender_url chainId).
    { destruct (spender_lookup w (spender_url chainId)).
      - destruct Hp as (rest & Hp & Hrest). rewrite Hp in Hin. simpl in Hin.
        destruct Hin as [Hin|[Hin|[Hin|Hin]]]; try discriminate.
        + injection Hin as <-. reflexivity.
        + destruct Hrest as [->|[request ->]]; [destruct Hin|].
          destruct Hin as [Hin|[]]. discriminate.
      - rewrite Hp in Hin. destruct Hin as [Hin|[]]. injection Hin as <-. reflexivity. }
    subst url. destruct (spender_lookup w (spender_url chainId)).
    + destruct Hp as (rest & Hp & Hrest). rewrite Hp.
      exists (swap_url chainId), (params_of i address), rest.
      split; [reflexivity|]. split; [exact Hrest|].
      destruct Hrest as [->|[request ->]]; reflexivity.
    + rewrite Hp. split; reflexivity.
  - intros Hnone. destruct (schema a) as [i|]; [|reflexivity].
    destruct (handler_shape w i) as [[r Hh]|(chainId & walletClient & address & Hh)];
      rewrite Hh in *; [reflexivity|].
    exfalso. apply (Hnone (spender_url chainId)).
    pose proof (pipeline_effects w i chainId walletClient address) as Hp.
    destruct (spender_lookup w (spender_url chainId)).
    + destruct Hp as (rest & -> & _). left. reflexivity.
    + rewrite Hp. left. reflexivity.
  - intros i key chain walletClient account -> Hapi Hkey Hne Hchain Hwallet Haccount.
    rewrite (handler_pipeline w i key chain walletClient account) by assumption.
    pose proof (pipeline_effects w i (chain_id chain) walletClient
                                 (account_address account)) as Hp.
    destruct (spender_lookup w (spender_url (chain_id chain))).
    + destruct Hp as (rest & -> & _). reflexivity.
    + rewrite Hp. reflexivity.
Qed.

Lemma swap_waits_once_witness :
  let w := Scenarios.swap Scenarios.swap_data in
  let effects := (swap_tokens_1inch w (Scenarios.swap_arguments "1000" None)).1 in
  exists url' params rest,
    effects =
    HttpGet "https://api.1inch.dev/swap/v6.0/1/approve/spender" None
    :: Delay 1100 :: HttpGet url' (Some params) :: rest /\
    (rest = [] \/ exists request, rest = [SendTransaction request]) /\
    waits effects = [1100%Z].
Proof.
  destruct (swap_waits_once (Scenarios.swap Scenarios.swap_data)
                            (Scenarios.swap_arguments "1000" None)) as [Hwait _].
  apply (Hwait "https://api.1inch.dev/swap/v6.0/1/approve/spender").
  vm_compute. left. reflexivity.
Defined.

(** C9 as stated fails: a call whose spender lookup is refused ends
    without waiting at all. *)
Lemma no_wait_counterexample :
  swap_tokens_1inch Scenarios.swap_unauthorized (Scenarios.swap_arguments "1000" None) =
  ([HttpGet "https://api.1inch.dev/swap/v6.0/1/approve/spender" None],
   Returned (failure "Error fetching 1inch spender: Request failed with status code 401")) /\
  waits (swap_tokens_1inch Scenarios.swap_unauthorized
                           (Scenarios.swap_arguments "1000" None)).1 = [].
Proof. split; vm_compute; reflexivity. Qed.

Lemma Qle_bool_false_of_lt (x y : Q) : (y < x)%Q -> Qle_bool x y = false.
Proof.
  intros H. destruct (Qle_bool x y) eqn:E; [|reflexivity].
  apply Qle_bool_iff in E. exfalso. eapply Qlt_not_le; eauto.
Qed.

(** C4, as the code has it: a slippage below 0.01 or above 50 is refused
    by the schema, so the handler does not run and no HTTP call is made.
    The schema asks of the amount only that it be a string: whatever
    string replaces the amount of accepted arguments is accepted too. *)
Theorem slippage_out_of_range_rejected w a q :
  arg_slippage a = Some (JNumber q) ->
  (q < 1 # 100)%Q \/ (50 < q)%Q ->
  swap_tokens_1inch w a = ([], InvalidArguments) /\
  forall a' i amount',
    schema a' = Some i ->
    schema (mkArguments (arg_fromTokenAddress a') (arg_toTokenAddress a')
                        (Some (JString amount')) (arg_network a') (arg_slippage a'))
    = Some (mkInput (fromTokenAddress i) (toTokenAddress i) amount'
                    (network i) (slippage i)).
Proof.
  intros Hs Hq. split.
  - unfold swap_tokens_1inch, schema. rewrite Hs.
    assert (Hz : z_number_range_default (1 # 100) 50 1 (Some (JNumber q)) = None).
    { simpl. destruct Hq as [Hq|Hq].
      - rewrite (Qle_bool_false_of_lt _ _ Hq). reflexivity.
      - rewrite (Qle_bool_false_of_lt _ _ Hq), andb_false_r. reflexivity. }
    rewrite Hz.
    destruct (z_string (arg_fromTokenAddress a)); [|reflexivity].
    destruct (z_string (arg_toTokenAddress a)); [|reflexivity].
    destruct (z_string (arg_amount a)); [|reflexivity].
    destruct (z_string_default _ _); reflexivity.
  - intros a' i amount'. unfold schema. simpl.
    repeat break_match; try discriminate. intros [= <-]. reflexivity.
Qed.

Lemma slippage_out_of_range_rejected_witness :
  swap_tokens_1inch (Scenarios.swap Scenarios.swap_data)
                    (Scenarios.swap_arguments "1000" (Some (JNumber (-1))))
  = ([], InvalidArguments) /\
  forall a' i amount',
    schema a' = Some i ->
    schema (mkArguments (arg_fromTokenAddress a') (arg_toTokenAddress a')
                        (Some (JString amount')) (arg_network a') (arg_slippage a'))
    = Some (mkInput (fromTokenAddress i) (toTokenAddress i) amount'
                    (network i) (slippage i)).
Proof.
  apply (slippage_out_of_range_rejected _ _ (-1)); [reflexivity|].
  left. reflexivity.
Defined.

(** C4 as stated fails: the amount [0] passes the schema, and the call
    goes on to the aggregator and to the submission. *)
Lemma zero_amount_counterexample :
  swap_tokens_1inch (Scenarios.swap Scenarios.swap_data)
                    (Scenarios.swap_arguments "0" None) =
  ([HttpGet "https://api.1inch.dev/swap/v6.0/1/approve/spender" None;
    Delay 1100;
    HttpGet "https://api.1inch.dev/swap/v6.0/1/swap"
            (Some (mkParams "0xEeeeeEeeeEeEeeEeEeEeeEEEeeeeEeeeeeeeEEeE"
                            "0xA0b86991c6218b36c1d19D4a2e9Eb0cE3606eB48"
                            "0" "address-of:0xkey" 1));
    SendTransaction (mkRequest (Some (JString "0xrouter")) (Some (JString "0xcalldata"))
                               0 None)],
   Returned (mkResult
     "Swap transaction submitted. Hash: 0xswap. Expected output: 5 DAI (raw amount, decimals: 18)"
     false (Some "0xswap"))).
Proof. vm_compute. reflexivity. Qed.

End SwapFacts.

(** ** Environment variables *)

Module EnvFacts.

Import Env.

Lemma truthy_opt_false o :
  Js.truthy_opt o = false <-> o = None \/ o = Some "".
Proof.
  destruct o as [[|c s]|]; simpl; split; intros H; auto; try discriminate.
  - destruct H as [H|H]; discriminate.
Qed.

Lemma truthy_opt_true o :
  Js.truthy_opt o = true <-> exists v, o = Some v /\ v <> "".
Proof.
  destruct o as [[|c s]|]; simpl; split; intros H; try discriminate; try reflexivity.
  - destruct H as (v & [= <-] & Hv). congruence.
  - exists (String c s). split; [reflexivity|discriminate].
  - destruct H as (v & [=] & _).
Qed.

(** X1: a required variable is returned as it is set, and only when it
    is set to a non-empty string; unset or empty it makes [getEnv] throw,
    whatever default was passed. *)
Theorem getEnv_required env name defaultValue :
  (exists v, env name = Some v /\ v <> "" /\
             getEnv env name true defaultValue = Ok v) \/
  ((env name = None \/ env name = Some "") /\
   getEnv env name true defaultValue =
   Throw (Js.Error ("Required environment variable " +:+ name +:+ " is not set"))).
Proof.
  unfold getEnv. destruct (Js.truthy_opt (env name)) eqn:Ht.
  - left. apply truthy_opt_true in Ht as (v & Hv & Hne).
    exists v. rewrite Hv. repeat split; auto.
    simpl. unfold Js.or_else. simpl.
    destruct v; [congruence|reflexivity].
  - right. apply truthy_opt_false in Ht. split; [exact Ht|reflexivity].
Qed.

(** X2: a variable that is not required never makes [getEnv] throw: a
    non-empty value wins over the default, and the result is empty exactly
    when both the variable and the default are unset or empty. *)
Theorem getEnv_optional env name defaultValue :
  exists v,
    getEnv env name false defaultValue = Ok v /\
    (forall x, env name = Some x -> x <> "" -> v = x) /\
    (v = "" <->
     (env name = None \/ env name = Some "") /\
     (defaultValue = None \/ defaultValue = Some "")).
Proof.
  unfold getEnv. rewrite andb_false_r. eexists. split; [reflexivity|].
  unfold Js.or_else.
  destruct (env name) as [[|c s]|]; simpl;
    destruct defaultValue as [[|c' s']|]; simpl; split;
    try (intros x [= <-] Hx; congruence);
    try (intros x [=]);
    split; intros H; auto; try discriminate;
    destruct H as [[H|H] [H'|H']]; discriminate.
Qed.

(** X3: the key [getPrivateKey] returns always starts with [0x]; it is
    the non-empty value of the variable, unchanged when that value has the
    prefix already, and asking again with the returned key gives it back. *)
Theorem getPrivateKey_prefixed env key :
  Config.getPrivateKey env = Ok key ->
  Js.startsWith key "0x" = true /\
  Config.getPrivateKey (Some key) = Ok key /\
  exists raw,
    env = Some raw /\ raw <> "" /\ key = Config.ensure0x raw /\
    (Js.startsWith raw "0x" = true -> key = raw).
Proof.
  unfold Config.getPrivateKey. destruct env as [raw|]; [|discriminate].
  destruct (Js.truthy_string raw) eqn:Ht; [|discriminate].
  intros [= <-]. unfold Config.ensure0x.
  assert (Hraw : raw <> "") by (destruct raw; [discriminate|congruence]).
  destruct (Js.startsWith raw "0x") eqn:Hp.
  - split; [exact Hp|]. split; [rewrite Ht, Hp; reflexivity|].
    exists raw. rewrite Hp. repeat split; auto.
  - split; [apply KeyFacts.startsWith_0x_prefixed|].
    split; [rewrite KeyFacts.startsWith_0x_prefixed; reflexivity|].
    exists raw. rewrite Hp. repeat split; auto. discriminate.
Qed.

Lemma getPrivateKey_prefixed_witness :
  Js.startsWith "0xab" "0x" = true /\
  Config.getPrivateKey (Some "0xab") = Ok "0xab" /\
  exists raw,
    Some "ab" = Some raw /\ raw <> "" /\ "0xab" = Config.ensure0x raw /\
    (Js.startsWith raw "0x" = true -> "0xab" = raw).
Proof. apply (getPrivateKey_prefixed (Some "ab") "0xab"). reflexivity. Defined.

End EnvFacts.

(** ** Runs of the client cache *)

Module CacheFacts.

Import Clients ClientRuns.

Lemma getPublicClient_keeps ext network st k client :
  clientCache st !! k = Some client ->
  clientCache (getPublicClient ext network st).2 !! k = Some client.
Proof.
  intros Hk. destruct (decide (k = network)) as [->|Hne].
  - rewrite (ClientsFacts.getPublicClient_cached _ _ _ _ Hk). exact Hk.
  - destruct (getPublicClient ext network st) as [r st1] eqn:E. simpl.
    rewrite (ClientsFacts.getPublicClient_other_keys _ _ _ _ _ _ E Hne). exact Hk.
Qed.

(** X4: a client, once in the cache, stays there under its key whatever
    calls follow, for whichever identifiers and under whichever
    configuration: nothing evicts or replaces an entry. *)
Theorem reads_keep_entries calls st k client :
  clientCache st !! k = Some client ->
  clientCache (reads calls st) !! k = Some client.
Proof.
  revert st. induction calls as [|[ext network] calls IH]; intros st Hk; [exact Hk|].
  unfold reads in *. simpl. apply IH. apply getPublicClient_keeps, Hk.
Qed.

Lemma reads_keep_entries_witness :
  let client := mkPublicClient 0 (Some Registry.mainnet) "https://rpc.example/ethereum" in
  clientCache (reads [(Registry.misconfigured, "optimism"); (Registry.externals, "1")]
                     (mkState {[ "ethereum" := client ]} 1))
    !! "ethereum" = Some client.
Proof. apply reads_keep_entries. reflexivity. Defined.

End CacheFacts.

Module CacheInvariants.

Import Clients ClientRuns.

Lemma getPublicClient_well_formed ext network st :
  well_formed st -> well_formed (getPublicClient ext network st).2.
Proof.
  intros (Hsize & Href & Hinj). unfold getPublicClient.
  destruct (clientCache st !! network) as [c|] eqn:Hc; [repeat split; assumption|].
  destruct (getChain ext _) as [chain|]; [|repeat split; assumption].
  destruct (getRpcUrl ext _) as [rpcUrl|]; [|repeat split; assumption].
  destruct (createPublicClient_throws ext chain rpcUrl); [repeat split; assumption|].
  unfold well_formed. cbn [snd clientCache constructed]. split; [|split].
  - rewrite map_size_insert_None by assumption. congruence.
  - intros k client. rewrite lookup_insert. case_decide.
    + intros [= <-]. cbn [pc_ref]. lia.
    + intros Hk. apply Href in Hk. lia.
  - intros k1 k2 c1 c2. rewrite !lookup_insert.
    repeat case_decide; subst; try congruence.
    + intros [= <-] Hk Heq. apply Href in Hk. cbn [pc_ref] in Heq. lia.
    + intros Hk [= <-] Heq. apply Href in Hk. cbn [pc_ref] in Heq. lia.
    + apply Hinj.
Qed.

Lemma reads_well_formed_from calls st : well_formed st -> well_formed (reads calls st).
Proof.
  revert st. induction calls as [|[ext network] calls IH]; intros st Hst; [exact Hst|].
  unfold reads in *. simpl. apply IH, getPublicClient_well_formed, Hst.
Qed.

(** X5: in every state the cache reaches from the empty one, there are as
    many cached clients as clients were constructed, and no client is
    stored under two identifiers: every construction is kept, and kept
    once. *)
Theorem reads_one_client_per_construction calls :
  let st := reads calls initial in
  size (clientCache st) = constructed st /\
  (forall k1 k2 c1 c2,
      clientCache st !! k1 = Some c1 -> clientCache st !! k2 = Some c2 ->
      pc_ref c1 = pc_ref c2 -> k1 = k2).
Proof.
  destruct (reads_well_formed_from calls initial) as (Hsize & _ & Hinj).
  - split; [reflexivity|].
    split; intros *; unfold initial; cbn [clientCache]; rewrite lookup_empty; discriminate.
  - split; assumption.
Qed.

Lemma getPublicClient_coherent ext network st seen :
  (forall k client, clientCache st !! k = Some client ->
      In k seen /\
      getChain ext (NetName k) = Ok (pc_chain client) /\
      getRpcUrl ext (NetName k) = Ok (pc_rpcUrl client)) ->
  forall k client,
    clientCache (getPublicClient ext network st).2 !! k = Some client ->
    In k (seen ++ [network]) /\
    getChain ext (NetName k) = Ok (pc_chain client) /\
    getRpcUrl ext (NetName k) = Ok (pc_rpcUrl client).
Proof.
  intros Hst k client. unfold getPublicClient.
  assert (Hold : clientCache st !! k = Some client ->
                 In k (seen ++ [network]) /\
                 getChain ext (NetName k) = Ok (pc_chain client) /\
                 getRpcUrl ext (NetName k) = Ok (pc_rpcUrl client)).
  { intros Hk. destruct (Hst _ _ Hk) as (Hin & Hc & Hu).
    repeat split; auto. apply in_or_app. auto. }
  destruct (clientCache st !! network) as [c|] eqn:Hc; [exact Hold|].
  destruct (getChain ext (NetName network)) as [chain|] eqn:Hchain; [|exact Hold].
  destruct (getRpcUrl ext (NetName network)) as [rpcUrl|] eqn:Hurl; [|exact Hold].
  destruct (createPublicClient_throws ext chain rpcUrl); [exact Hold|].
  cbn [snd clientCache]. rewrite lookup_insert. case_decide; [|exact Hold].
  subst k. intros [= <-]. cbn [pc_chain pc_rpcUrl]. repeat split; auto.
  apply in_or_app. right. left. reflexivity.
Qed.

Lemma reads_coherent_from ext networks seen st :
  (forall k client, clientCache st !! k = Some client ->
      In k seen /\ getChain ext (NetName k) = Ok (pc_chain client) /\
      getRpcUrl ext (NetName k) = Ok (pc_rpcUrl client)) ->
  forall k client,
    clientCache (reads ((fun network => (ext, network)) <$> networks) st) !! k
      = Some client ->
    In k (seen ++ networks) /\ getChain ext (NetName k) = Ok (pc_chain client) /\
    getRpcUrl ext (NetName k) = Ok (pc_rpcUrl client).
Proof.
  revert seen st. induction networks as [|network networks IH]; intros seen st Hst k client.
  - simpl. rewrite app_nil_r. apply Hst.
  - unfold reads in *. simpl. intros Hk.
    replace (seen ++ network :: networks) with ((seen ++ [network]) ++ networks)
      by (rewrite <- app_assoc; reflexivity).
    eapply IH; [|exact Hk].
    apply getPublicClient_coherent, Hst.
Qed.

(** X6: under one configuration, a cached client sits under an
    identifier that was asked for, and carries the chain and the RPC URL
    the registry gives for that very identifier. *)
Theorem reads_coherent ext networks k client :
  clientCache (reads ((fun network => (ext, network)) <$> networks) initial) !! k
    = Some client ->
  In k networks /\
  getChain ext (NetName k) = Ok (pc_chain client) /\
  getRpcUrl ext (NetName k) = Ok (pc_rpcUrl client).
Proof.
  intros Hk. apply (reads_coherent_from ext networks [] initial); [|exact Hk].
  intros k' c'. unfold initial. cbn [clientCache]. rewrite lookup_empty. discriminate.
Qed.

Lemma reads_coherent_witness :
  let client := mkPublicClient 1 (Some Registry.mainnet) "https://rpc.example/ethereum" in
  In "1" ["ethereum"; "1"] /\
  getChain Registry.externals (NetName "1") = Ok (pc_chain client) /\
  getRpcUrl Registry.externals (NetName "1") = Ok (pc_rpcUrl client).
Proof.
  apply (reads_coherent Registry.externals ["ethereum"; "1"] "1").
  vm_compute. reflexivity.
Defined.

Import AcrossClient.

Lemma calls_set n instance count :
  calls n (AcrossClient.mkState (Some instance) count) =
  (replicate n instance, AcrossClient.mkState (Some instance) count).
Proof.
  induction n as [|n IH]; [reflexivity|].
  simpl. rewrite IH. reflexivity.
Qed.

(** X7: however often [getAcrossClient] is called, every call returns
    the instance the first call returned, and the state after the calls is
    the state after the first: at most one instance is ever constructed. *)
Theorem getAcrossClient_singleton n st :
  calls (S n) st =
  (replicate (S n) (getAcrossClient st).1, (getAcrossClient st).2).
Proof.
  simpl. destruct st as [[instance|] count]; unfold getAcrossClient; simpl;
    rewrite calls_set; reflexivity.
Qed.

End CacheInvariants.

(** ** Block reads *)

Module BlocksFacts.

Import Clients Blocks.

Lemma is_integer_integral q z : (q == inject_Z z)%Q -> is_integer q = true /\ (Qnum q / Zpos (Qden q) = z)%Z.
Proof.
  unfold Qeq, is_integer. simpl. rewrite Z.mul_1_r. intros ->.
  split.
  - apply Z.eqb_eq, Z_mod_mult.
  - apply Z_div_mult. reflexivity.
Qed.

Lemma is_integer_true q : is_integer q = true -> (q == inject_Z (Qnum q / Zpos (Qden q)))%Q.
Proof.
  unfold Qeq, is_integer. simpl. rewrite Z.mul_1_r. intros H.
  apply Z.eqb_eq in H. rewrite Z.mul_comm. apply Z_div_exact_full_2; [discriminate|exact H].
Qed.

Lemma BigInt_integral text n z : integral n z -> BigInt text n = Ok z.
Proof.
  intros (q & -> & Hq). unfold BigInt.
  destruct (is_integer_integral q z Hq) as [-> ->]. reflexivity.
Qed.

Lemma BigInt_not_integral text n :
  (forall z, ~ integral n z) -> exists e, BigInt text n = Throw e.
Proof.
  intros H. unfold BigInt. destruct n as [q| |b]; eauto.
  destruct (is_integer q) eqn:E; eauto.
  exfalso. apply (H (Qnum q / Zpos (Qden q))%Z). exists q. split; [reflexivity|].
  apply is_integer_true, E.
Qed.

(** X8: each of the four block reads leaves the state [getPublicClient]
    leaves for its network, and sends at most one request, on the client
    cached for that network; when no client can be had it sends none. *)
Theorem block_read_requests ext r network st :
  let after := perform ext r network st in
  after.1 = (getPublicClient (clients ext) network st).2 /\
  (after.2 = [] \/
   exists q, after.2 = [q] /\ clientCache after.1 !! network = Some (client_of q)) /\
  (forall e, (getPublicClient (clients ext) network st).1 = Throw e -> after.2 = []).
Proof.
  destruct r; simpl;
    unfold getBlockNumber, getBlockByNumber, getBlockByHash, getLatestBlock;
    destruct (getPublicClient (clients ext) network st) as [[client|e] st1] eqn:E; simpl;
    try (destruct (BigInt _ _); simpl);
    (split; [reflexivity|]); (split; [|intros; try discriminate; reflexivity]);
    auto; right; eexists; (split; [reflexivity|]); simpl;
    eapply ClientsFacts.getPublicClient_stores; eauto.
Qed.

(** X9: of two block reads in a row on one network, the second
    constructs nothing once the first has a client, and whatever the two
    send goes through the same client. *)
Theorem block_reads_share_client ext r1 r2 network st :
  let first := perform ext r1 network st in
  let second := perform ext r2 network first.1 in
  (is_Some (clientCache first.1 !! network) -> second.1 = first.1) /\
  (forall q1 q2, In q1 first.2 -> In q2 second.2 -> client_of q1 = client_of q2).
Proof.
  intros first second.
  destruct (block_read_requests ext r1 network st) as (H1 & Hs1 & _).
  destruct (block_read_requests ext r2 network first.1) as (H2 & Hs2 & _).
  fold first in H1, Hs1. fold second in H2, Hs2.
  assert (Hkeep : forall c, clientCache first.1 !! network = Some c -> second.1 = first.1).
  { intros c Hc. rewrite H2, (ClientsFacts.getPublicClient_cached _ _ _ _ Hc). reflexivity. }
  split.
  - intros [c Hc]. eauto.
  - intros q1 q2 Hq1 Hq2.
    destruct Hs1 as [Hs1|(q & Hs1 & Hc1)]; rewrite Hs1 in Hq1; [contradiction|].
    destruct Hs2 as [Hs2|(q' & Hs2 & Hc2)]; rewrite Hs2 in Hq2; [contradiction|].
    destruct Hq1 as [<-|[]]. destruct Hq2 as [<-|[]].
    rewrite (Hkeep _ Hc1) in Hc2. congruence.
Qed.

(** X10: [getBlockByNumber] asks for the block whose number is the
    integer value of its argument; for an argument that is not an integer
    ([NaN], an infinity, a fraction) it throws and sends nothing, though
    the client for the network has been constructed and cached by then. *)
Theorem getBlockByNumber_integer ext n network st :
  (forall z client st1,
      integral n z ->
      getPublicClient (clients ext) network st = (Ok client, st1) ->
      getBlockByNumber ext n network st =
      (rpc_getBlock ext client (ByNumber z), st1, [GetBlock client (ByNumber z)])) /\
  ((forall z, ~ integral n z) ->
   exists e, getBlockByNumber ext n network st =
             (Throw e, (getPublicClient (clients ext) network st).2, [])).
Proof.
  split.
  - intros z client st1 Hn Hc. unfold getBlockByNumber.
    rewrite Hc, (BigInt_integral _ _ _ Hn). reflexivity.
  - intros Hn. unfold getBlockByNumber.
    destruct (getPublicClient (clients ext) network st) as [[client|e] st1]; simpl; eauto.
    destruct (BigInt_not_integral (number_text ext) n Hn) as [e ->]. eauto.
Qed.

End BlocksFacts.

(** ** Transfers and the tools that submit *)

Module TransferFacts.

Import Clients Transfer.

Lemma formatKey_ensure0x key : formatKey key = Config.ensure0x key.
Proof.
  unfold formatKey, Config.ensure0x. destruct (Js.startsWith key "0x"); reflexivity.
Qed.

Lemma ensure0x_idempotent key : Config.ensure0x (Config.ensure0x key) = Config.ensure0x key.
Proof.
  unfold Config.ensure0x at 2 3. destruct (Js.startsWith key "0x") eqn:H.
  - unfold Config.ensure0x. rewrite H. reflexivity.
  - unfold Config.ensure0x. rewrite KeyFacts.startsWith_0x_prefixed. reflexivity.
Qed.

Lemma erc20_call_inv ext functionName token counterpartyOrEns amount key network st :
  let '(r, st1, sent) :=
    erc20_call ext functionName token counterpartyOrEns amount key network st in
  (sent = [] /\ exists e, r = Throw e) \/
  exists tokenAddress counterparty client d sym rawAmount wallet,
    resolveAddress ext token network = Ok tokenAddress /\
    resolveAddress ext counterpartyOrEns network = Ok counterparty /\
    clientCache st1 !! network = Some client /\
    read_decimals ext client tokenAddress = Ok d /\
    read_symbol ext client tokenAddress = Ok sym /\
    parseUnits ext amount d = Ok rawAmount /\
    getWalletClient (clients ext) (Config.ensure0x key) (NetName network) = Ok wallet /\
    sent = [WriteContract tokenAddress functionName counterparty rawAmount] /\
    match r with
    | Ok o =>
        submit ext wallet (WriteContract tokenAddress functionName counterparty rawAmount)
          = Ok (txHash o) /\
        raw (Transfer.amount o) = rawAmount /\
        formatted (Transfer.amount o) = amount /\
        decimals (Transfer.token o) = d /\
        symbol (Transfer.token o) = sym
    | Throw e =>
        submit ext wallet (WriteContract tokenAddress functionName counterparty rawAmount)
          = Throw e
    end.
Proof.
  unfold erc20_call. rewrite formatKey_ensure0x.
  destruct (resolveAddress ext token network) as [tokenAddress|] eqn:H1; [|cbv beta iota; left; eauto].
  destruct (resolveAddress ext counterpartyOrEns network) as [counterparty|] eqn:H2;
    [|cbv beta iota; left; eauto].
  destruct (getPublicClient (clients ext) network st) as [[client|] st1] eqn:H3;
    [|cbv beta iota; left; eauto].
  destruct (read_decimals ext client tokenAddress) as [d|] eqn:H4; [|cbv beta iota; left; eauto].
  destruct (read_symbol ext client tokenAddress) as [sym|] eqn:H5; [|cbv beta iota; left; eauto].
  destruct (parseUnits ext amount d) as [rawAmount|] eqn:H6; [|cbv beta iota; left; eauto].
  destruct (getWalletClient (clients ext) _ _) as [wallet|] eqn:H7; [|cbv beta iota; left; eauto].
  apply ClientsFacts.getPublicClient_stores in H3.
  destruct (submit ext wallet _) as [hash|e] eqn:H8; cbv beta iota;
    right; exists tokenAddress, counterparty, client, d, sym, rawAmount, wallet;
    repeat split; auto.
Qed.

Lemma transferETH_inv ext key toAddressOrEns amount network :
  let '(r, sent) := transferETH ext key toAddressOrEns amount network in
  (sent = [] /\ exists e, r = Throw e) \/
  exists toAddress wallet amountWei,
    resolveAddress ext toAddressOrEns network = Ok toAddress /\
    getWalletClient (clients ext) (Config.ensure0x key) (NetName network) = Ok wallet /\
    parseEther ext amount = Ok amountWei /\
    sent = [SendTransaction toAddress amountWei] /\
    r = submit ext wallet (SendTransaction toAddress amountWei).
Proof.
  unfold transferETH. rewrite formatKey_ensure0x.
  destruct (resolveAddress ext toAddressOrEns network) as [toAddress|] eqn:H1; [|cbv beta iota; left; eauto].
  destruct (getWalletClient (clients ext) _ _) as [wallet|] eqn:H2; [|cbv beta iota; left; eauto].
  destruct (parseEther ext amount) as [amountWei|] eqn:H3; [|cbv beta iota; left; eauto].
  cbv beta iota. right. exists toAddress, wallet, amountWei. repeat split; auto.
Qed.

(** X11: [transferERC20] and [approveERC20] submit at most one contract
    call, and only after both addresses resolved, the token's decimals and
    symbol were read, the amount parsed and the wallet built; the amount
    submitted is the parsed one, and the amount reported back is that same
    raw value beside the amount string as it was passed in. A call that
    submits nothing has failed. *)
Theorem erc20_call_submissions ext functionName token counterpartyOrEns amount key network st :
  let '(r, st1, sent) :=
    erc20_call ext functionName token counterpartyOrEns amount key network st in
  (sent = [] /\ exists e, r = Throw e) \/
  exists tokenAddress counterparty client d sym rawAmount wallet,
    resolveAddress ext token network = Ok tokenAddress /\
    resolveAddress ext counterpartyOrEns network = Ok counterparty /\
    clientCache st1 !! network = Some client /\
    read_decimals ext client tokenAddress = Ok d /\
    read_symbol ext client tokenAddress = Ok sym /\
    parseUnits ext amount d = Ok rawAmount /\
    getWalletClient (clients ext) (Config.ensure0x key) (NetName network) = Ok wallet /\
    sent = [WriteContract tokenAddress functionName counterparty rawAmount] /\
    match r with
    | Ok o =>
        submit ext wallet (WriteContract tokenAddress functionName counterparty rawAmount)
          = Ok (txHash o) /\
        raw (Transfer.amount o) = rawAmount /\
        formatted (Transfer.amount o) = amount /\
        decimals (Transfer.token o) = d /\
        symbol (Transfer.token o) = sym
    | Throw e =>
        submit ext wallet (WriteContract tokenAddress functionName counterparty rawAmount)
          = Throw e
    end.
Proof. apply erc20_call_inv. Qed.

(** X12: [transferETH] submits at most one transaction, and only after
    the recipient resolved, the wallet was built from the normalised key
    and the amount parsed; the value sent is the parsed amount, to the
    resolved address, and the result is what the submission returned. *)
Theorem transferETH_submissions ext key toAddressOrEns amount network :
  let '(r, sent) := transferETH ext key toAddressOrEns amount network in
  (sent = [] /\ exists e, r = Throw e) \/
  exists toAddress wallet amountWei,
    resolveAddress ext toAddressOrEns network = Ok toAddress /\
    getWalletClient (clients ext) (Config.ensure0x key) (NetName network) = Ok wallet /\
    parseEther ext amount = Ok amountWei /\
    sent = [SendTransaction toAddress amountWei] /\
    r = submit ext wallet (SendTransaction toAddress amountWei).
Proof. apply transferETH_inv. Qed.

Import Tools.

Lemma erc20_tool_inv ext functionName token counterpartyOrEns amount key network st :
  let '(r, st1, sent) :=
    erc20_call ext functionName token counterpartyOrEns amount key network st in
  length sent <= 1 /\
  forall o, r = Ok o ->
    exists s wallet,
      sent = [s] /\
      getWalletClient (clients ext) (Config.ensure0x key) (NetName network) = Ok wallet /\
      submit ext wallet s = Ok (txHash o).
Proof.
  pose proof (erc20_call_inv ext functionName token counterpartyOrEns amount key network st) as H.
  destruct (erc20_call ext functionName token counterpartyOrEns amount key network st)
    as [[r st1] sent].
  destruct H as [[-> [e ->]]|(t & c & cl & d & sym & rawAmount & wallet & _ & _ & _ & _ & _ & _ & Hw & -> & Hr)].
  - split; [simpl; lia|]. discriminate.
  - split; [simpl; lia|]. intros o ->. destruct Hr as (Hs & _). eauto.
Qed.

(** X13: each of [transfer_eth], [transfer_erc20],
    [approve_token_spending] and [transfer_token] makes at most one
    submission; a result without [isError] means that one submission was
    made, signed by the wallet of the key with its [0x] prefix ensured, and
    accepted; and the three tools that read the key from the environment
    report the missing key and submit nothing when it is unset or empty. *)
Theorem submitting_tools_report w tool network st :
  let '(r, sent) := call w tool network st in
  length sent <= 1 /\
  (isError r = false ->
   exists key s wallet hash,
     key_of w tool = Some key /\
     sent = [s] /\
     getWalletClient (Transfer.clients (services w)) (Config.ensure0x key)
                     (NetName (network_or_default network)) = Ok wallet /\
     submit (services w) wallet s = Ok hash) /\
  (Js.truthy_opt (WALLET_PRIVATE_KEY w) = false ->
   (forall key token to amount, tool <> TransferToken key token to amount) ->
   r = key_missing /\ sent = []).
Proof.
  destruct tool as [to amount|token to amount|token spender amount|key token to amount];
    unfold call.
  - unfold transfer_eth.
    destruct (Js.truthy_opt (WALLET_PRIVATE_KEY w)) eqn:Ht; cbn [negb].
    + destruct (WALLET_PRIVATE_KEY w) as [key|] eqn:Hk; [|discriminate].
      pose proof (transferETH_inv (services w) key to amount (network_or_default network)) as H.
      destruct (transferETH (services w) key to amount (network_or_default network))
        as [r sent].
      destruct H as [[-> [e ->]]|(a & wallet & wei & _ & Hw & _ & -> & ->)].
      * split; [simpl; lia|]. split; [discriminate|discriminate].
      * destruct (submit (services w) wallet _) as [hash|e] eqn:Hs;
          (split; [simpl; lia|]); (split; [|discriminate]).
        -- intros _. exists key. eauto 10.
        -- discriminate.
    + split; [simpl; lia|]. split; [discriminate|]. auto.
  - unfold transfer_erc20.
    destruct (Js.truthy_opt (WALLET_PRIVATE_KEY w)) eqn:Ht; cbn [negb].
    + destruct (WALLET_PRIVATE_KEY w) as [key|] eqn:Hk; [|discriminate].
      change (if Js.startsWith key "0x" then key else "0x" +:+ key) with (Config.ensure0x key).
      unfold transferERC20.
      pose proof (erc20_tool_inv (services w) "transfer" token to amount (Config.ensure0x key)
                                 (network_or_default network) st) as H.
      destruct (erc20_call _ _ _ _ _ _ _ _) as [[r st1] sent]. destruct H as [Hlen Hok].
      destruct r as [o|e]; (split; [exact Hlen|]); (split; [|discriminate]).
      * intros _. destruct (Hok o eq_refl) as (s & wallet & -> & Hw & Hs).
        rewrite ensure0x_idempotent in Hw. exists key. eauto 10.
      * discriminate.
    + split; [simpl; lia|]. split; [discriminate|]. auto.
  - unfold approve_token_spending.
    destruct (Js.truthy_opt (WALLET_PRIVATE_KEY w)) eqn:Ht; cbn [negb].
    + destruct (WALLET_PRIVATE_KEY w) as [key|] eqn:Hk; [|discriminate].
      change (if Js.startsWith key "0x" then key else "0x" +:+ key) with (Config.ensure0x key).
      unfold approveERC20.
      pose proof (erc20_tool_inv (services w) "approve" token spender amount
                                 (Config.ensure0x key) (network_or_default network) st) as H.
      destruct (erc20_call _ _ _ _ _ _ _ _) as [[r st1] sent]. destruct H as [Hlen Hok].
      destruct r as [o|e]; (split; [exact Hlen|]); (split; [|discriminate]).
      * intros _. destruct (Hok o eq_refl) as (s & wallet & -> & Hw & Hs).
        rewrite ensure0x_idempotent in Hw. exists key. eauto 10.
      * discriminate.
    + split; [simpl; lia|]. split; [discriminate|]. auto.
  - unfold transfer_token, transferERC20.
    pose proof (erc20_tool_inv (services w) "transfer" token to amount key
                               (network_or_default network) st) as H.
    destruct (erc20_call _ _ _ _ _ _ _ _) as [[r st1] sent]. destruct H as [Hlen Hok].
    destruct r as [o|e]; (split; [exact Hlen|]);
      (split; [|intros _ Hne; exfalso; eapply Hne; reflexivity]).
    + intros _. destruct (Hok o eq_refl) as (s & wallet & -> & Hw & Hs).
      exists key. eauto 10.
    + discriminate.
Qed.

(** X14: [resolve_ens] refuses a name without a dot before calling
    anything; otherwise it normalises first and asks for the address only
    if that succeeded, for the name as it was typed, and it reports
    success exactly when the address came back. *)
Theorem resolve_ens_calls w ensName network :
  let '(r, calls) := resolve_ens w ensName network in
  (includes_point ensName = false -> calls = [] /\ isError r = true) /\
  (includes_point ensName = true ->
   (exists e, normalize w ensName = Throw e /\
              calls = [Normalize ensName] /\ isError r = true) \/
   (exists normalized,
       normalize w ensName = Ok normalized /\
       calls = [Normalize ensName;
                ResolveAddress ensName (network_or_default network)] /\
       (isError r = false <->
        exists a, resolveAddress (services w) ensName (network_or_default network) = Ok a))).
Proof.
  unfold resolve_ens. destruct (includes_point ensName); simpl.
  - destruct (normalize w ensName) as [normalized|e].
    + destruct (resolveAddress (services w) ensName _) as [a|e] eqn:Hr;
        (split; [discriminate|]); intros _; right; exists normalized;
        repeat split; eauto; try discriminate.
      intros [a [=]].
    + split; [discriminate|]. intros _. left. eauto.
  - split; [auto|discriminate].
Qed.

End TransferFacts.

(** ** Token lookup *)

Module TokenLookupFacts.

Import TokenLookup.

Section WithBuiltins.
Variable toLowerCase : string -> string.
Variable number_text : Q -> string.

Lemma find_inputs_then_outputs (f : TokenInfo -> bool) inputs outputs :
  match List.find f inputs with
  | Some token => Some token
  | None => List.find f outputs
  end = List.find f (inputs ++ outputs).
Proof.
  induction inputs as [|t inputs IH]; simpl; [reflexivity|].
  destruct (f t); auto.
Qed.

Lemma lookup_address chains chainIdentifier tokenSymbol :
  contractAddress (get_token_contract_address toLowerCase number_text chains chainIdentifier
                                              tokenSymbol) =
  match List.find (chain_matches toLowerCase chainIdentifier) chains with
  | None => None
  | Some chain =>
      address <$> List.find (symbol_matches toLowerCase (toLowerCase tokenSymbol))
                            (inputTokens chain ++ outputTokens chain)
  end.
Proof.
  unfold get_token_contract_address.
  destruct (List.find _ chains) as [chain|]; [|reflexivity].
  rewrite find_inputs_then_outputs.
  destruct (List.find _ (inputTokens chain ++ outputTokens chain)); reflexivity.
Qed.

Lemma lookup_isError chains chainIdentifier tokenSymbol :
  isError (get_token_contract_address toLowerCase number_text chains chainIdentifier
                                              tokenSymbol) =
  match contractAddress (get_token_contract_address toLowerCase number_text chains chainIdentifier
                                              tokenSymbol) with
  | Some _ => false
  | None => true
  end.
Proof.
  unfold get_token_contract_address.
  destruct (List.find _ chains) as [chain|]; [|reflexivity].
  destruct (match List.find _ (inputTokens chain) with Some _ => _ | None => _ end);
    reflexivity.
Qed.

End WithBuiltins.

(** X15: the address [get_token_contract_address] returns is the
    address of the first token with the requested symbol, compared in lower
    case, among the input tokens and then the output tokens of the first
    chain that matches the identifier; later chains are not searched, and
    the call is an error exactly when no address is returned. *)
Theorem token_lookup_first_match toLowerCase number_text chains chainIdentifier tokenSymbol :
  let r := get_token_contract_address toLowerCase number_text chains chainIdentifier
                                      tokenSymbol in
  contractAddress r =
    (List.find (chain_matches toLowerCase chainIdentifier) chains ≫= fun chain =>
     address <$> List.find (symbol_matches toLowerCase (toLowerCase tokenSymbol))
                           (inputTokens chain ++ outputTokens chain)) /\
  (isError r = true <-> contractAddress r = None) /\
  (forall a, contractAddress r = Some a ->
     exists chain token,
       In chain chains /\ chain_matches toLowerCase chainIdentifier chain = true /\
       In token (inputTokens chain ++ outputTokens chain) /\
       toLowerCase (symbol token) = toLowerCase tokenSymbol /\
       address token = a).
Proof.
  intros r. subst r. rewrite lookup_isError, lookup_address.
  destruct (List.find (chain_matches toLowerCase chainIdentifier) chains) as [chain|] eqn:Hc;
    simpl.
  - split; [reflexivity|]. split.
    + destruct (List.find _ (inputTokens chain ++ outputTokens chain)); simpl;
        split; congruence.
    + intros a Ha.
      destruct (List.find _ (inputTokens chain ++ outputTokens chain)) as [token|] eqn:Ht;
        [|discriminate].
      simpl in Ha. injection Ha as <-.
      apply List.find_some in Hc as [Hin Hm]. apply List.find_some in Ht as [Hint Hs].
      exists chain, token. repeat split; auto.
      apply String.eqb_eq, Hs.
  - split; [reflexivity|]. split; [tauto|discriminate].
Qed.

(** X16: the lookup does not tell apart symbols, or chain names, that
    agree in lower case: they get the same address and the same error
    flag. *)
Theorem token_lookup_case_insensitive toLowerCase number_text chains
    name1 name2 symbol1 symbol2 :
  toLowerCase name1 = toLowerCase name2 ->
  toLowerCase symbol1 = toLowerCase symbol2 ->
  let r1 := get_token_contract_address toLowerCase number_text chains
                                       (ChainName name1) symbol1 in
  let r2 := get_token_contract_address toLowerCase number_text chains
                                       (ChainName name2) symbol2 in
  contractAddress r1 = contractAddress r2 /\ isError r1 = isError r2.
Proof.
  intros Hn Hs r1 r2. subst r1 r2.
  rewrite !lookup_isError, !lookup_address.
  assert (Hfind : List.find (chain_matches toLowerCase (ChainName name1)) chains =
                  List.find (chain_matches toLowerCase (ChainName name2)) chains).
  { unfold chain_matches. rewrite Hn. reflexivity. }
  rewrite Hfind, Hs. split; reflexivity.
Qed.

Lemma token_lookup_case_insensitive_witness :
  let r1 := get_token_contract_address MoreScenarios.lower (fun _ => "1")
              MoreScenarios.across_chains (ChainName "ETHEREUM") "usdc" in
  let r2 := get_token_contract_address MoreScenarios.lower (fun _ => "1")
              MoreScenarios.across_chains (ChainName "ethereum") "USDC" in
  contractAddress r1 = contractAddress r2 /\ isError r1 = isError r2.
Proof.
  apply (token_lookup_case_insensitive MoreScenarios.lower (fun _ => "1")
           MoreScenarios.across_chains "ETHEREUM" "ethereum" "usdc" "USDC");
    reflexivity.
Defined.

End TokenLookupFacts.

(** ** More on the bridge tool *)

Module BridgeMoreFacts.

Import Clients Bridge BridgeSignals.

Lemma deliver_not_settling s : settling s = false -> deliver s Pending = Pending.
Proof.
  destruct s as [p|e]; simpl; [|discriminate].
  unfold onProgress. intros H.
  apply orb_false_elim in H as [H He]. apply orb_false_elim in H as [Hd Ht].
  rewrite Hd, Ht, He. reflexivity.
Qed.

Lemma deliver_settling s : settling s = true -> deliver s Pending <> Pending.
Proof.
  destruct s as [p|e]; simpl; [|intros _ H; discriminate H].
  unfold onProgress. intros H.
  destruct (String.eqb (step p) "deposit" && String.eqb (status p) "txSuccess") eqn:Hd.
  - destruct (txReceipt_transactionHash p) as [[|c hash]|]; simpl;
      destruct (String.eqb (status p) "txError" || String.eqb (status p) "error");
      simpl; discriminate.
  - simpl in H. rewrite H. simpl. discriminate.
Qed.

Lemma run_first_settling signals :
  run signals Pending =
  match List.find settling signals with
  | Some s => deliver s Pending
  | None => Pending
  end.
Proof.
  induction signals as [|s signals IH]; [reflexivity|].
  unfold run in *. simpl. destruct (settling s) eqn:Hs.
  - apply (BridgeFacts.run_settled signals). apply deliver_settling, Hs.
  - rewrite (deliver_not_settling s Hs). exact IH.
Qed.

(** X17: the call is settled by the first signal that is a rejection of
    [executeQuote], an event with status [txError] or [error], or a
    [deposit] event with status [txSuccess], and by nothing else: the
    outcome is what that signal does to a pending call, and a call that
    receives no such signal stays pending for ever. *)
Theorem first_settling_signal_decides signals :
  run signals Pending =
    match List.find settling signals with
    | Some s => deliver s Pending
    | None => Pending
    end /\
  (forall s, deliver s Pending = Pending <-> settling s = false).
Proof.
  split; [apply run_first_settling|].
  intros s. split.
  - intros H. destruct (settling s) eqn:Hs; [|reflexivity].
    exfalso. exact (deliver_settling s Hs H).
  - apply deliver_not_settling.
Qed.

Lemma deliver_fulfilled s r :
  deliver s Pending = Fulfilled r ->
  exists p hash,
    s = Progress p /\ step p = "deposit" /\ status p = "txSuccess" /\
    txReceipt_transactionHash p = Some hash /\ hash <> "" /\
    r = mkResult ("Successfully initiated ETH bridge. Deposit Tx: " +:+ hash)
                 false (Some hash).
Proof.
  destruct s as [p|e]; simpl; [|discriminate].
  unfold onProgress.
  destruct (String.eqb (step p) "deposit" && String.eqb (status p) "txSuccess") eqn:Hd.
  - apply andb_prop in Hd as [Hstep Hstatus].
    apply String.eqb_eq in Hstep, Hstatus.
    destruct (txReceipt_transactionHash p) as [[|c hash]|] eqn:Hhash; simpl;
      destruct (String.eqb (status p) "txError" || String.eqb (status p) "error");
      simpl; try discriminate;
      intros [= <-]; exists p, (String c hash); repeat split; auto; discriminate.
  - destruct (String.eqb (status p) "txError" || String.eqb (status p) "error");
      simpl; discriminate.
Qed.

(** X18: when the bridge call is fulfilled without [isError], the SDK
    did deliver a [deposit] event with status [txSuccess] and a non-empty
    transaction hash, and the result carries that hash: success is never
    reported without a deposit transaction. *)
Theorem bridge_success_has_deposit w o d a r :
  (bridge_native_eth_across w o d a).2 = Fulfilled r ->
  isError r = false ->
  exists walletClient deposit p hash,
    In (ExecuteQuote walletClient deposit) (bridge_native_eth_across w o d a).1 /\
    In (Progress p) (executeQuote w walletClient deposit) /\
    step p = "deposit" /\ status p = "txSuccess" /\
    txReceipt_transactionHash p = Some hash /\ hash <> "" /\
    depositTxHash r = Some hash /\
    text r = "Successfully initiated ETH bridge. Deposit Tx: " +:+ hash.
Proof.
  unfold bridge_native_eth_across.
  repeat break_match; simpl; intros Hr Herr;
    try discriminate; try (injection Hr as <-; discriminate).
  all: rewrite run_first_settling in Hr;
    match type of Hr with
    | context [List.find settling ?l] =>
        destruct (List.find settling l) as [settler|] eqn:Hfind
    end; [|discriminate];
    apply List.find_some in Hfind as [Hin _];
    apply deliver_fulfilled in Hr as (p & hash & -> & Hstep & Hstatus & Hhash & Hne & ->);
    do 4 eexists; split; [right; left; reflexivity|];
    repeat split; eauto.
Qed.

Lemma bridge_success_has_deposit_witness :
  exists walletClient deposit p hash,
    In (ExecuteQuote walletClient deposit)
       (bridge_native_eth_across (Scenarios.bridge [Progress Scenarios.deposit_success])
                                 "ethereum" "optimism" "0.1").1 /\
    In (Progress p)
       (executeQuote (Scenarios.bridge [Progress Scenarios.deposit_success])
                     walletClient deposit) /\
    step p = "deposit" /\ status p = "txSuccess" /\
    txReceipt_transactionHash p = Some hash /\ hash <> "" /\
    depositTxHash (mkResult "Successfully initiated ETH bridge. Deposit Tx: 0xdeposit"
                            false (Some "0xdeposit")) = Some hash /\
    text (mkResult "Successfully initiated ETH bridge. Deposit Tx: 0xdeposit"
                   false (Some "0xdeposit"))
    = "Successfully initiated ETH bridge. Deposit Tx: " +:+ hash.
Proof.
  apply (bridge_success_has_deposit
           (Scenarios.bridge [Progress Scenarios.deposit_success])
           "ethereum" "optimism" "0.1"); reflexivity.
Defined.

Lemma wethAddresses_chains id address :
  wethAddresses id = Some address -> id = 1%Z \/ id = 10%Z \/ id = 42161%Z.
Proof.
  unfold wethAddresses.
  destruct (Z.eqb id 1) eqn:H1; [apply Z.eqb_eq in H1; auto|].
  destruct (Z.eqb id 10) eqn:H2; [apply Z.eqb_eq in H2; auto|].
  destruct (Z.eqb id 42161) eqn:H3; [apply Z.eqb_eq in H3; auto|].
  discriminate.
Qed.

(** X19: the bridge handler reaches the Across SDK only with a
    non-empty key, two networks the registry knows whose chain ids are
    among 1, 10 and 42161, and an amount that parsed; the route it asks a
    quote for joins the WETH addresses of those two chains and is native.
    It asks for at most one quote, and calls [executeQuote] at most once,
    then with the deposit of that quote and a wallet that has an account,
    built for the origin chain from the key with its prefix ensured. *)
Theorem bridge_effects w o d a :
  let effects := (bridge_native_eth_across w o d a).1 in
  effects = [] \/
  exists key origin destination inputAmount r,
    WALLET_PRIVATE_KEY w = Some key /\ key <> "" /\
    getChain (clients w) (NetName o) = Ok (Some origin) /\
    getChain (clients w) (NetName d) = Ok (Some destination) /\
    (chain_id origin = 1 \/ chain_id origin = 10 \/ chain_id origin = 42161)%Z /\
    (chain_id destination = 1 \/ chain_id destination = 10
     \/ chain_id destination = 42161)%Z /\
    parseEther w a = Ok inputAmount /\
    originChainId r = chain_id origin /\
    destinationChainId r = chain_id destination /\
    wethAddresses (chain_id origin) = Some (inputToken r) /\
    wethAddresses (chain_id destination) = Some (outputToken r) /\
    isNative r = true /\
    (effects = [GetQuote r inputAmount] \/
     exists walletClient deposit account,
       getQuote w r inputAmount = Ok deposit /\
       getWalletClient (clients w) (Config.ensure0x key) (NetId (chain_id origin))
         = Ok walletClient /\
       wc_account walletClient = Some account /\
       effects = [GetQuote r inputAmount; ExecuteQuote walletClient deposit]).
Proof.
  unfold bridge_native_eth_across.
  destruct (WALLET_PRIVATE_KEY w) as [key|] eqn:Hkey; [|left; reflexivity].
  destruct (Js.truthy_string key) eqn:Ht; [|left; reflexivity]. simpl negb. cbv iota.
  change (if Js.startsWith key "0x" then key else "0x" +:+ key) with (Config.ensure0x key).
  destruct (getChain (clients w) (NetName o)) as [[origin|]|] eqn:Ho;
    destruct (getChain (clients w) (NetName d)) as [[destination|]|] eqn:Hd;
    try (left; reflexivity).
  destruct (wethAddresses (chain_id origin)) as [inputTokenAddress|] eqn:Hi;
    [|left; reflexivity].
  destruct (wethAddresses (chain_id destination)) as [outputTokenAddress|] eqn:Hout;
    [|left; reflexivity].
  destruct (parseEther w a) as [inputAmount|] eqn:Ha; [|left; reflexivity].
  right.
  exists key, origin, destination, inputAmount,
    (mkRoute (chain_id origin) (chain_id destination)
             inputTokenAddress outputTokenAddress true).
  assert (Hne : key <> "") by (destruct key; [discriminate|congruence]).
  pose proof (wethAddresses_chains _ _ Hi). pose proof (wethAddresses_chains _ _ Hout).
  repeat (split; [solve [auto]|]).
  destruct (getQuote w _ inputAmount) as [deposit|] eqn:Hq; [|left; reflexivity].
  destruct (getWalletClient (clients w) _ _) as [walletClient|] eqn:Hw; [|left; reflexivity].
  destruct (wc_account walletClient) as [account|] eqn:Hacc; [|left; reflexivity].
  right. exists walletClient, deposit, account. repeat split; auto.
Qed.

End BridgeMoreFacts.

(** ** More on the swap tool *)

Module SwapMoreFacts.

Import Clients Swap.

Lemma submit_swap_returns w walletClient data :
  exists r, (submit_swap w walletClient data).2 = Returned r.
Proof.
  unfold submit_swap. repeat break_match; simpl; eauto.
Qed.

Lemma swap_pipeline_returns w i chainId walletClient address :
  exists r, (swap_pipeline w i chainId walletClient address).2 = Returned r.
Proof.
  unfold swap_pipeline.
  destruct (match axios_get w (spender_url chainId) None with
            | Ok d => prop d "address" | Throw e => Throw e end); [|simpl; eauto].
  destruct (axios_get w (swap_url chainId) _) as [data|e]; [|simpl; eauto].
  destruct (submit_swap_returns w walletClient data) as [r Hr].
  destruct (submit_swap w walletClient data). simpl in *. eauto.
Qed.

(** X20: a fault leaves the swap handler only from the registry lookup
    or from the construction of the wallet, both before any effect; once
    the handler has got that far, whatever fails is returned as a result,
    and the handler itself never refuses arguments. *)
Theorem swap_faults w i :
  match (handler w i).2 with
  | Returned _ => True
  | InvalidArguments => False
  | Escaped e =>
      (handler w i).1 = [] /\
      exists key,
        WALLET_PRIVATE_KEY w = Some key /\ key <> "" /\
        (getChain (clients w) (NetName (network i)) = Throw e \/
         exists chain,
           getChain (clients w) (NetName (network i)) = Ok (Some chain) /\
           getWalletClient (clients w) (Config.ensure0x key) (NetId (chain_id chain))
             = Throw e)
  end.
Proof.
  unfold handler.
  destruct (Js.truthy_opt (ONEINCH_API_KEY w)); simpl; [|exact I].
  destruct (WALLET_PRIVATE_KEY w) as [key|] eqn:Hkey; [|exact I].
  destruct (Js.truthy_string key) eqn:Ht; simpl; [|exact I].
  assert (Hne : key <> "") by (destruct key; [discriminate|congruence]).
  change (if Js.startsWith key "0x" then key else "0x" +:+ key) with (Config.ensure0x key).
  destruct (getChain (clients w) (NetName (network i))) as [[chain|]|e] eqn:Hc; simpl;
    [| exact I | split; [reflexivity|]; exists key; auto].
  destruct (getWalletClient (clients w) _ _) as [walletClient|e] eqn:Hw; simpl.
  - destruct (wc_account walletClient) as [account|]; [|exact I].
    destruct (swap_pipeline_returns w i (chain_id chain) walletClient
                                    (account_address account)) as [r ->].
    exact I.
  - split; [reflexivity|]. exists key. repeat split; auto. right. eauto.
Qed.

Lemma submit_swap_sent w walletClient data request :
  In (SendTransaction request) (submit_swap w walletClient data).1 ->
  exists tx,
    prop data "tx" = Ok tx /\ truthy tx = true /\
    to request = optional_prop tx "to" /\ truthy (to request) = true /\
    Swap.data request = optional_prop tx "data" /\ truthy (Swap.data request) = true /\
    is_undefined (optional_prop tx "value") = false /\
    js_BigInt w (optional_prop tx "value") = Ok (value request) /\
    (if truthy (optional_prop tx "gas")
     then exists g, js_BigInt w (optional_prop tx "gas") = Ok g /\ gas request = Some g
     else gas request = None) /\
    match sendTransaction w walletClient request with
    | Ok hash =>
        exists r, (submit_swap w walletClient data).2 = Returned r /\
                  isError r = false /\ transactionHash r = Some hash
    | Throw e => (submit_swap w walletClient data).2 = Returned (swap_failed e)
    end.
Proof.
  unfold submit_swap.
  destruct (prop data "tx") as [tx|] eqn:Htx; [|intros []].
  destruct (negb (truthy tx) || negb (truthy (optional_prop tx "to"))
            || negb (truthy (optional_prop tx "data"))
            || is_undefined (optional_prop tx "value")) eqn:Hmissing; [intros []|].
  apply orb_false_elim in Hmissing as [Hmissing Hvalue].
  apply orb_false_elim in Hmissing as [Hmissing Hdata].
  apply orb_false_elim in Hmissing as [Htruthy Hto].
  apply negb_false_iff in Htruthy, Hto, Hdata.
  destruct (js_BigInt w (optional_prop tx "value")) as [v|] eqn:Hv; [|intros []].
  destruct (truthy (optional_prop tx "gas")) eqn:Hgas.
  - destruct (js_BigInt w (optional_prop tx "gas")) as [g|] eqn:Hg; [|intros []].
    destruct (sendTransaction w walletClient _) as [hash|e] eqn:Hsend; simpl;
      intros [[= <-]|[]]; exists tx; rewrite Hgas, Hsend;
      repeat split; eauto.
  - destruct (sendTransaction w walletClient _) as [hash|e] eqn:Hsend; simpl;
      intros [[= <-]|[]]; exists tx; rewrite Hgas, Hsend;
      repeat split; eauto.
Qed.

(** X21: a swap transaction is submitted only after the aggregator
    answered the swap request, made for the chain the registry resolved,
    with the caller's tokens, amount and slippage unchanged and, as
    sender, the address of the account of the wallet client the handler
    built for that chain from the configured key, its prefix ensured. The
    answer then has a [tx] with a truthy [to] and [data] and a [value]; the
    request submitted carries that [to] and [data] as received, the [value]
    as [BigInt] read it, and a gas limit only if the answer has one. It is
    submitted through that same wallet client: the call returns the hash
    the client gave for it, or the failure the client raised. *)
Theorem swap_submits_the_quote w i request :
  In (SendTransaction request) (handler w i).1 ->
  exists key chain walletClient account response tx,
    WALLET_PRIVATE_KEY w = Some key /\
    getChain (clients w) (NetName (network i)) = Ok (Some chain) /\
    getWalletClient (clients w) (Config.ensure0x key) (NetId (chain_id chain))
      = Ok walletClient /\
    wc_account walletClient = Some account /\
    axios_get w (swap_url (chain_id chain))
              (Some (mkParams (fromTokenAddress i) (toTokenAddress i) (amount i)
                              (account_address account) (slippage i)))
      = Ok response /\
    prop response "tx" = Ok tx /\ truthy tx = true /\
    to request = optional_prop tx "to" /\ truthy (to request) = true /\
    Swap.data request = optional_prop tx "data" /\ truthy (Swap.data request) = true /\
    is_undefined (optional_prop tx "value") = false /\
    js_BigInt w (optional_prop tx "value") = Ok (value request) /\
    (if truthy (optional_prop tx "gas")
     then exists g, js_BigInt w (optional_prop tx "gas") = Ok g /\ gas request = Some g
     else gas request = None) /\
    match sendTransaction w walletClient request with
    | Ok hash =>
        exists r, (handler w i).2 = Returned r /\
                  isError r = false /\ transactionHash r = Some hash
    | Throw e => (handler w i).2 = Returned (swap_failed e)
    end.
Proof.
  unfold handler.
  destruct (Js.truthy_opt (ONEINCH_API_KEY w)); simpl; [|intros []].
  destruct (WALLET_PRIVATE_KEY w) as [key|]; [|intros []].
  destruct (Js.truthy_string key); simpl; [|intros []].
  change (if Js.startsWith key "0x" then key else "0x" +:+ key) with (Config.ensure0x key).
  destruct (getChain (clients w) (NetName (network i))) as [[chain|]|e] eqn:Hc; simpl;
    try (intros []).
  destruct (getWalletClient (clients w) _ _) as [walletClient|e] eqn:Hw; simpl;
    [|intros []].
  destruct (wc_account walletClient) as [account|] eqn:Ha; [|intros []].
  destruct (SwapFacts.pipeline_shape w i (chain_id chain) walletClient
                                     (account_address account))
    as [[r Hp]|[(r & e & Hthrow & Hp)|(response & Hdata & Hp)]]; rewrite Hp; simpl.
  - intros [H|[]]. discriminate.
  - intros [H|[H|[H|[]]]]; discriminate.
  - intros [H|[H|[H|H]]]; try discriminate.
    apply submit_swap_sent in H as (tx & H).
    exists key, chain, walletClient, account, response, tx.
    split; [reflexivity|]. split; [reflexivity|]. split; [exact Hw|].
    split; [exact Ha|]. split; [exact Hdata|exact H].
Qed.

Lemma swap_submits_the_quote_witness :
  let w := Scenarios.swap Scenarios.swap_data in
  let i := mkInput "0xEeeeeEeeeEeEeeEeEeEeeEEEeeeeEeeeeeeeEEeE"
                   "0xA0b86991c6218b36c1d19D4a2e9Eb0cE3606eB48" "1000" "ethereum" 1 in
  let request := mkRequest (Some (JString "0xrouter")) (Some (JString "0xcalldata"))
                           0 None in
  exists key chain walletClient account response tx,
    WALLET_PRIVATE_KEY w = Some key /\
    getChain (clients w) (NetName (network i)) = Ok (Some chain) /\
    getWalletClient (clients w) (Config.ensure0x key) (NetId (chain_id chain))
      = Ok walletClient /\
    wc_account walletClient = Some account /\
    axios_get w (swap_url (chain_id chain))
              (Some (mkParams (fromTokenAddress i) (toTokenAddress i) (amount i)
                              (account_address account) (slippage i)))
      = Ok response /\
    prop response "tx" = Ok tx /\ truthy tx = true /\
    to request = optional_prop tx "to" /\ truthy (to request) = true /\
    Swap.data request = optional_prop tx "data" /\ truthy (Swap.data request) = true /\
    is_undefined (optional_prop tx "value") = false /\
    js_BigInt w (optional_prop tx "value") = Ok (value request) /\
    (if truthy (optional_prop tx "gas")
     then exists g, js_BigInt w (optional_prop tx "gas") = Ok g /\ gas request = Some g
     else gas request = None) /\
    match sendTransaction w walletClient request with
    | Ok hash =>
        exists r, (handler w i).2 = Returned r /\
                  isError r = false /\ transactionHash r = Some hash
    | Throw e => (handler w i).2 = Returned (swap_failed e)
    end.
Proof.
  apply swap_submits_the_quote. vm_compute. right; right; right; left. reflexivity.
Defined.

Lemma submit_swap_result w walletClient data r :
  (submit_swap w walletClient data).2 = Returned r ->
  (isError r = false /\
   exists request hash,
     In (SendTransaction request) (submit_swap w walletClient data).1 /\
     sendTransaction w walletClient request = Ok hash /\
     transactionHash r = Some hash) \/
  (isError r = true /\ transactionHash r = None).
Proof.
  unfold submit_swap.
  repeat break_match; simpl; intros [= <-]; try (right; split; reflexivity).
  all: left; split; [reflexivity|]; do 2 eexists;
    (split; [left; reflexivity|]); split; [eassumption|reflexivity].
Qed.

(** X22: what the swap handler returns either has [isError] and no
    transaction hash, or reports success with the hash that
    [sendTransaction] returned for the one request the call submitted:
    success is never reported without an accepted submission. *)
Theorem swap_success_has_hash w i r :
  (handler w i).2 = Returned r ->
  (isError r = false /\
   exists walletClient request hash,
     In (SendTransaction request) (handler w i).1 /\
     sendTransaction w walletClient request = Ok hash /\
     transactionHash r = Some hash) \/
  (isError r = true /\ transactionHash r = None).
Proof.
  unfold handler.
  destruct (Js.truthy_opt (ONEINCH_API_KEY w)); simpl;
    [|intros [= <-]; right; split; reflexivity].
  destruct (WALLET_PRIVATE_KEY w) as [key|]; [|intros [= <-]; right; split; reflexivity].
  destruct (Js.truthy_string key); simpl; [|intros [= <-]; right; split; reflexivity].
  destruct (getChain (clients w) (NetName (network i))) as [[chain|]|e]; simpl;
    [| intros [= <-]; right; split; reflexivity | discriminate].
  destruct (getWalletClient (clients w) _ _) as [walletClient|e]; simpl; [|discriminate].
  destruct (wc_account walletClient) as [account|];
    [|intros [= <-]; right; split; reflexivity].
  unfold swap_pipeline.
  destruct (match axios_get w (spender_url (chain_id chain)) None with
            | Ok d => prop d "address" | Throw e => Throw e end);
    [|simpl; intros [= <-]; right; split; reflexivity].
  destruct (axios_get w (swap_url (chain_id chain)) _) as [response|e];
    [|simpl; intros [= <-]; right; split; reflexivity].
  pose proof (submit_swap_result w walletClient response r) as H.
  destruct (submit_swap w walletClient response) as [after out]. simpl in *.
  intros Hr. destruct (H Hr) as [(Herr & request & hash & Hin & Hs & Hh)|Hfail]; [|auto].
  left. split; [exact Herr|]. exists walletClient, request, hash.
  repeat split; auto.
Qed.

Lemma swap_success_has_hash_witness :
  let w := Scenarios.swap Scenarios.swap_data in
  let i := mkInput "0xEeeeeEeeeEeEeeEeEeEeeEEEeeeeEeeeeeeeEEeE"
                   "0xA0b86991c6218b36c1d19D4a2e9Eb0cE3606eB48" "1000" "ethereum" 1 in
  let r := mkResult
    "Swap transaction submitted. Hash: 0xswap. Expected output: 5 DAI (raw amount, decimals: 18)"
    false (Some "0xswap") in
  (isError r = false /\
   exists walletClient request hash,
     In (SendTransaction request) (handler w i).1 /\
     sendTransaction w walletClient request = Ok hash /\
     transactionHash r = Some hash) \/
  (isError r = true /\ transactionHash r = None).
Proof.
  apply swap_success_has_hash. vm_compute. reflexivity.
Defined.

(** X23: the schema of [swap_tokens_1inch] accepts exactly the arguments
    whose two token addresses and amount are strings, whose network is a
    string or absent, then [ethereum], and whose slippage is a number from
    0.01 to 50 or absent, then 1; what the handler receives is those values
    unchanged. *)
Theorem schema_accepts a i :
  schema a = Some i <->
  arg_fromTokenAddress a = Some (JString (fromTokenAddress i)) /\
  arg_toTokenAddress a = Some (JString (toTokenAddress i)) /\
  arg_amount a = Some (JString (amount i)) /\
  (arg_network a = None /\ network i = "ethereum" \/
   arg_network a = Some (JString (network i))) /\
  (arg_slippage a = None /\ slippage i = 1%Q \/
   arg_slippage a = Some (JNumber (slippage i)) /\
   (1 # 100 <= slippage i)%Q /\ (slippage i <= 50)%Q).
Proof.
  unfold schema. split.
  - destruct (z_string (arg_fromTokenAddress a)) as [from|] eqn:Hf; [|discriminate].
    destruct (z_string (arg_toTokenAddress a)) as [to|] eqn:Hto; [|discriminate].
    destruct (z_string (arg_amount a)) as [amt|] eqn:Ha; [|discriminate].
    destruct (z_string_default "ethereum" (arg_network a)) as [net|] eqn:Hn; [|discriminate].
    destruct (z_number_range_default (1 # 100) 50 1 (arg_slippage a)) as [q|] eqn:Hs;
      [|discriminate].
    intros [= <-]. simpl.
    assert (Hstr : forall v s, z_string v = Some s -> v = Some (JString s)).
    { intros v str H. destruct v as [[]|]; simpl in H; try discriminate H.
      injection H as <-. reflexivity. }
    repeat split; auto.
    + destruct (arg_network a) as [[]|]; simpl in Hn; try discriminate;
        injection Hn as <-; auto.
    + destruct (arg_slippage a) as [[]|]; simpl in Hs; try discriminate.
      * destruct (Qle_bool (1 # 100) q0 && Qle_bool q0 50) eqn:Hr; [|discriminate].
        injection Hs as <-. apply andb_prop in Hr as [Hlo Hhi].
        apply Qle_bool_iff in Hlo, Hhi. right. auto.
      * injection Hs as <-. auto.
  - destruct i as [from to amt net q]. simpl.
    intros (-> & -> & -> & Hn & Hs). simpl.
    assert (Hnet : z_string_default "ethereum" (arg_network a) = Some net).
    { destruct Hn as [[-> ->]| ->]; reflexivity. }
    assert (Hslip : z_number_range_default (1 # 100) 50 1 (arg_slippage a) = Some q).
    { destruct Hs as [[-> ->]|(-> & Hlo & Hhi)]; [reflexivity|]. simpl.
      apply Qle_bool_iff in Hlo, Hhi. rewrite Hlo, Hhi. reflexivity. }
    rewrite Hnet, Hslip. reflexivity.
Qed.

End SwapMoreFacts.

(** ** The MCP client manager *)

Module McpManagerFacts.

Import McpManager.

Lemma run_snoc events e s : run (events ++ [e]) s = step e (run events s).
Proof. unfold run. rewrite fold_left_app. reflexivity. Qed.

Lemma failures_snoc events e :
  failures (events ++ [e]) = failures events + (if is_failure e then 1 else 0).
Proof.
  unfold failures. rewrite List.filter_app, length_app. simpl.
  destruct (is_failure e); reflexivity.
Qed.

(** What holds of every state of the manager. *)
Lemma run_invariant events :
  let s := run events initial in
  (hasTools s = true -> is_Some (mcpClient s) /\ isInitializing s = false) /\
  (isInitializing s = true -> initPromise s = true) /\
  connections s +
    (if negb (bool_decide (is_Some (mcpClient s))) && negb (isInitializing s)
     then 1 else 0) <= 1 + failures events.
Proof.
  induction events as [|e events IH] using rev_ind.
  - simpl. repeat split; try discriminate. lia.
  - rewrite run_snoc, failures_snoc. simpl in IH.
    destruct (run events initial) as [client tools init promise n].
    destruct IH as (Htools & Hpromise & Hbound). simpl in *.
    destruct e; unfold step, connecting, loading, hasTools in *; simpl in *;
      destruct client as [c|]; destruct init; simpl in *;
      repeat split; intros; try discriminate; try lia; eauto;
      match goal with
      | H : _ = true |- _ =>
          destruct (Htools H) as [Hsome Hinit];
          first [discriminate Hinit | destruct Hsome as [? Hsome]; discriminate Hsome]
      end.
Qed.

(** X24: whatever callers and settlements come in whatever order, the
    manager has tools only while it holds a client and no initialisation is
    running, and an initialisation that is running has its promise set for
    later callers to wait on. *)
Theorem manager_tools_need_client events :
  let s := run events initial in
  (hasTools s = true -> is_Some (mcpClient s) /\ isInitializing s = false) /\
  (isInitializing s = true -> initPromise s = true).
Proof.
  destruct (run_invariant events) as (H1 & H2 & _). split; assumption.
Qed.

Lemma manager_tools_need_client_witness :
  let s := run [GetClient; ConnectResolved; ToolsResolved ["get_balance"]] initial in
  hasTools s = true /\ is_Some (mcpClient s) /\ isInitializing s = false.
Proof.
  split; [reflexivity|].
  apply (manager_tools_need_client [GetClient; ConnectResolved; ToolsResolved ["get_balance"]]).
  reflexivity.
Defined.

(** X25: the manager opens at most one connection more than the number
    of failed initialisations: callers that arrive while an initialisation
    is running, or after one has succeeded, open none. *)
Theorem manager_connections_bounded events :
  connections (run events initial) <= 1 + failures events.
Proof.
  destruct (run_invariant events) as (_ & _ & H). simpl in H. lia.
Qed.

(** X26: when the connection or the loading of the tools fails, the
    manager is left without client and without tools and no longer
    initialising, and the next caller of [getClient] opens a new
    connection. *)
Theorem manager_retries_after_failure s e :
  connecting s = true /\ e = ConnectRejected \/ loading s = true /\ e = ToolsRejected ->
  let failed := step e s in
  mcpClient failed = None /\ tools failed = [] /\ isInitializing failed = false /\
  connections failed = connections s /\
  isInitializing (step GetClient failed) = true /\
  connections (step GetClient failed) = S (connections s).
Proof.
  intros [[H ->]|[H ->]]; simpl; rewrite H; simpl; repeat split.
Qed.

Lemma manager_retries_after_failure_witness :
  let s := step GetClient initial in
  let failed := step ConnectRejected s in
  mcpClient failed = None /\ tools failed = [] /\ isInitializing failed = false /\
  connections failed = connections s /\
  isInitializing (step GetClient failed) = true /\
  connections (step GetClient failed) = S (connections s).
Proof.
  apply (manager_retries_after_failure (step GetClient initial) ConnectRejected).
  left. split; reflexivity.
Defined.

End McpManagerFacts.
